(** * user-ledger-buddy: persistence store and reporting aggregation

    A shallow embedding of [src/lib/database.ts] (the [DatabaseService]
    class over IndexedDB), of the aggregation done by the [Reports]
    component and of the validation done by [DataManagement.handleImport],
    together with the properties the specification states about them.

    Conventions.
    - A [Date] is represented by its time value ([getTime()], integral
      milliseconds), a [Z].
    - A JS [number] is an IEEE-754 binary64 value, a [spec_float] with the
      operations of [SpecFloat] at precision 53 and maximal exponent 1024.
    - An IndexedDB object store with [keyPath: 'id'] is a finite map from
      the key to the stored record.  [getAll()] returns the records in
      ascending key order; every property below is insensitive to that
      order, so the order of [map_to_list] stands for it.
    - [crypto.randomUUID()] and [new Date()] are inputs of the operations
      that call them. *)

From Stdlib Require Import ZArith String List Lia Permutation Sorted.
From Stdlib Require Import Floats.SpecFloat.
From Stdlib Require Import DecimalString.
From stdpp Require Import base gmap strings list fin_maps.

Local Open Scope string_scope.

(** ** Data model ([database.ts], lines 1-23) *)

Definition number := spec_float.

Definition num_add : number -> number -> number := SFadd 53 1024.
Definition num_zero : number := S754_zero false.
Definition num_eqb : number -> number -> bool := SFeqb.

Module User.
Record t := mk {
  id : string;
  name : string;
  phone : string;
  address : string;
  idNumber : string;
  createdAt : Z
}.

(** [Omit<User, 'id' | 'createdAt'>] *)
Record fields := mkFields {
  f_name : string;
  f_phone : string;
  f_address : string;
  f_idNumber : string
}.
End User.

Module Balance.
Record t := mk {
  id : string;
  userId : string;
  amount : number;
  month : string;
  description : option string;
  createdAt : Z
}.

(** [Omit<Balance, 'id' | 'createdAt'>] *)
Record fields := mkFields {
  f_userId : string;
  f_amount : number;
  f_month : string;
  f_description : option string
}.
End Balance.

Record ExportData := mkExportData {
  users : list User.t;
  balances : list Balance.t;
  exportDate : Z
}.

(** ** IndexedDB object stores

    The part of the IndexedDB API the service uses: an object store keyed
    by a key path, its indexes (each possibly unique), and the requests
    [add], [put], [clear], [get] and [getAll]. *)

Inductive DOMException := ConstraintError | AbortError | DataError.

Record index (V : Type) := mkIndex {
  index_name : string;
  index_keyPath : V -> list string;
  index_unique : bool
}.
Arguments mkIndex {V}.
Arguments index_name {V}.
Arguments index_keyPath {V}.
Arguments index_unique {V}.

Definition keys_eqb (k1 k2 : list string) : bool := bool_decide (k1 = k2).

Section ObjectStore.
Context {V : Type}.
Variable key : V -> string.
Variable indexes : list (index V).

(** A unique index refuses a record whose index key is already held by a
    record stored under another primary key. *)
Definition index_conflict (ix : index V) (v : V) (m : gmap string V) : bool :=
  index_unique ix &&
  existsb (fun kw => negb (String.eqb (fst kw) (key v))
                     && keys_eqb (index_keyPath ix (snd kw)) (index_keyPath ix v))
          (map_to_list m).

Definition any_conflict (v : V) (m : gmap string V) : bool :=
  existsb (fun ix => index_conflict ix v m) indexes.

(** [store.add(v)]: fails when the primary key exists or a unique index
    is violated. *)
Definition store_add (v : V) (m : gmap string V) : DOMException + gmap string V :=
  match m !! key v with
  | Some _ => inl ConstraintError
  | None => if any_conflict v m then inl ConstraintError
            else inr (<[key v := v]> m)
  end.

(** [store.put(v)]: overwrites the record stored under the same primary
    key; still subject to the unique indexes. *)
Definition store_put (v : V) (m : gmap string V) : DOMException + gmap string V :=
  if any_conflict v m then inl ConstraintError
  else inr (<[key v := v]> m).

Definition store_clear (m : gmap string V) : gmap string V := ∅.

Definition store_get (k : string) (m : gmap string V) : option V := m !! k.

Definition store_getAll (m : gmap string V) : list V := map snd (map_to_list m).

(** [index.getAll(k)] *)
Definition index_getAll (ix : index V) (k : list string) (m : gmap string V) : list V :=
  List.filter (fun v => keys_eqb (index_keyPath ix v) k) (store_getAll m).

(** What an object store built through [add], [put] and [clear] always
    satisfies: records sit under their own key, and no two records share
    the key of a unique index. *)
Definition store_ok (m : gmap string V) : Prop :=
  (forall k v, m !! k = Some v -> key v = k) /\
  (forall ix, In ix indexes -> index_unique ix = true ->
     forall k1 v1 k2 v2, m !! k1 = Some v1 -> m !! k2 = Some v2 ->
       index_keyPath ix v1 = index_keyPath ix v2 -> k1 = k2).

(** [forEach(v => store.add(v))] against the working copy of one store. *)
Fixpoint add_all (vs : list V) (m : gmap string V) : DOMException + gmap string V :=
  match vs with
  | [] => inr m
  | v :: vs' =>
      match store_add v m with
      | inr m' => add_all vs' m'
      | inl e => inl e
      end
  end.
End ObjectStore.

(** ** The database schema ([initDB], lines 42-59) *)

Definition users_indexes : list (index User.t) :=
  [ mkIndex "name" (fun u => [User.name u]) false;
    mkIndex "idNumber" (fun u => [User.idNumber u]) true ].

Definition balances_indexes : list (index Balance.t) :=
  [ mkIndex "userId" (fun b => [Balance.userId b]) false;
    mkIndex "month" (fun b => [Balance.month b]) false;
    mkIndex "userMonth" (fun b => [Balance.userId b; Balance.month b]) true ].

Record IDBDatabase := mkDB {
  db_users : gmap string User.t;
  db_balances : gmap string Balance.t
}.

Definition empty_db : IDBDatabase := mkDB ∅ ∅.

Definition db_ok (db : IDBDatabase) : Prop :=
  store_ok User.id users_indexes (db_users db) /\
  store_ok Balance.id balances_indexes (db_balances db).

(** ** Transactions

    The requests placed on a read-write transaction run in order against a
    working copy.  A failing request fires an [error] event; unless a
    handler calls [preventDefault()] the transaction aborts and every
    change made in it is reverted.  No handler of [DatabaseService] calls
    [preventDefault()]. *)

Inductive request :=
| ClearUsers
| ClearBalances
| AddUser (u : User.t)
| AddBalance (b : Balance.t)
| PutBalance (b : Balance.t).

Definition exec (r : request) (w : IDBDatabase) : DOMException + IDBDatabase :=
  match r with
  | ClearUsers => inr (mkDB (store_clear (db_users w)) (db_balances w))
  | ClearBalances => inr (mkDB (db_users w) (store_clear (db_balances w)))
  | AddUser u =>
      match store_add User.id users_indexes u (db_users w) with
      | inr m => inr (mkDB m (db_balances w))
      | inl e => inl e
      end
  | AddBalance b =>
      match store_add Balance.id balances_indexes b (db_balances w) with
      | inr m => inr (mkDB (db_users w) m)
      | inl e => inl e
      end
  | PutBalance b =>
      match store_put Balance.id balances_indexes b (db_balances w) with
      | inr m => inr (mkDB (db_users w) m)
      | inl e => inl e
      end
  end.

Fixpoint run_requests (preventDefault : bool) (rs : list request) (w : IDBDatabase)
  : DOMException + IDBDatabase :=
  match rs with
  | [] => inr w
  | r :: rs' =>
      match exec r w with
      | inr w' => run_requests preventDefault rs' w'
      | inl e => if preventDefault then run_requests preventDefault rs' w else inl e
      end
  end.

Inductive tx_outcome := Complete | Aborted (e : DOMException).

Definition transaction (preventDefault : bool) (rs : list request) (db : IDBDatabase)
  : tx_outcome * IDBDatabase :=
  match run_requests preventDefault rs db with
  | inr db' => (Complete, db')
  | inl e => (Aborted e, db)
  end.

(** ** DatabaseService *)

(** A settled promise; the reason of a rejection is whatever was passed
    to [reject], possibly [null]. *)
Inductive promise (A : Type) :=
| Resolved (a : A)
| Rejected (reason : option DOMException).
Arguments Resolved {A}.
Arguments Rejected {A}.

(** [addUser], lines 64-80. *)
Definition newUser (user : User.fields) (uuid : string) (now : Z) : User.t :=
  User.mk uuid (User.f_name user) (User.f_phone user) (User.f_address user)
          (User.f_idNumber user) now.

Definition addUser (user : User.fields) (uuid : string) (now : Z) (db : IDBDatabase)
  : promise User.t * IDBDatabase :=
  let nu := newUser user uuid now in
  match transaction false [AddUser nu] db with
  | (Complete, db') => (Resolved nu, db')
  | (Aborted e, db') => (Rejected (Some e), db')
  end.

Definition getAllUsers (db : IDBDatabase) : list User.t :=
  store_getAll (db_users db).

Definition getUserById (id : string) (db : IDBDatabase) : option User.t :=
  store_get id (db_users db).

(** [addBalance], lines 107-123. *)
Definition newBalance (balance : Balance.fields) (uuid : string) (now : Z) : Balance.t :=
  Balance.mk uuid (Balance.f_userId balance) (Balance.f_amount balance)
             (Balance.f_month balance) (Balance.f_description balance) now.

Definition addBalance (balance : Balance.fields) (uuid : string) (now : Z) (db : IDBDatabase)
  : promise Balance.t * IDBDatabase :=
  let nb := newBalance balance uuid now in
  match transaction false [AddBalance nb] db with
  | (Complete, db') => (Resolved nb, db')
  | (Aborted e, db') => (Rejected (Some e), db')
  end.

Definition getBalancesByUserId (userId : string) (db : IDBDatabase) : list Balance.t :=
  index_getAll (mkIndex "userId" (fun b => [Balance.userId b]) false) [userId] (db_balances db).

Definition getAllBalances (db : IDBDatabase) : list Balance.t :=
  store_getAll (db_balances db).

(** [updateBalance], lines 150-160. *)
Definition updateBalance (balance : Balance.t) (db : IDBDatabase)
  : promise Balance.t * IDBDatabase :=
  match transaction false [PutBalance balance] db with
  | (Complete, db') => (Resolved balance, db')
  | (Aborted e, db') => (Rejected (Some e), db')
  end.

(** [exportData], lines 163-174. *)
Definition exportData (now : Z) (db : IDBDatabase) : ExportData :=
  mkExportData (getAllUsers db) (getAllBalances db) now.

(** [importData], lines 176-202: one transaction over both stores.  The
    promise is rejected from [transaction.onerror] with
    [transaction.error], which is still [null] while the [error] event of
    the failing request is being dispatched.  The records are those of
    [ExportData]: each carries a string [id], a valid key, so no [add]
    throws while the requests are being placed; [importData_unchecked]
    below covers the values for which [add] throws. *)
Definition import_requests (data : ExportData) : list request :=
  ([ClearUsers; ClearBalances]
     ++ map AddUser (users data)
     ++ map AddBalance (balances data))%list.

Definition importData (data : ExportData) (db : IDBDatabase) : promise unit * IDBDatabase :=
  match transaction false (import_requests data) db with
  | (Complete, db') => (Resolved tt, db')
  | (Aborted e, db') => (Rejected None, db')
  end.

(** [importData] as it runs.  The type of its parameter is not checked at
    run time, and [handleImport] hands over the arrays as [JSON.parse]
    produced them.  [store.add] sees a value either as a record of the
    declared type, or as a value in which the key path ['id'] yields no
    valid key (an object without [id], [null], ...); for the latter it
    throws a [DataError] at once instead of placing a request. *)
Inductive element (R : Type) :=
| Keyed (r : R)
| Keyless.
Arguments Keyed {R}.
Arguments Keyless {R}.

(** [forEach(v => store.add(v))]: the requests placed before [forEach]
    returns or [add] throws, and whether it threw. *)
Fixpoint place_adds {R : Type} (add : R -> request) (vs : list (element R))
  : list request * bool :=
  match vs with
  | [] => ([], false)
  | Keyed r :: vs' =>
      let (rs, thrown) := place_adds add vs' in (add r :: rs, thrown)
  | Keyless :: _ => ([], true)
  end.

(** Lines 176-202 once more.  An exception thrown while the requests are
    being placed leaves the executor and rejects the promise; nothing
    aborts the transaction, so the requests placed so far, the two
    [clear()] among them, still run and are committed unless one of them
    fails. *)
Definition importData_unchecked
    (users : list (element User.t)) (balances : list (element Balance.t))
    (db : IDBDatabase) : promise unit * IDBDatabase :=
  let (user_adds, thrown_users) := place_adds AddUser users in
  let (balance_adds, thrown) :=
    if thrown_users then ([], true) else place_adds AddBalance balances in
  let placed := ([ClearUsers; ClearBalances] ++ user_adds ++ balance_adds)%list in
  match transaction false placed db with
  | (Complete, db') =>
      (if thrown then Rejected (Some DataError) else Resolved tt, db')
  | (Aborted e, db') =>
      (Rejected (if thrown then Some DataError else None), db')
  end.

(** ** Reports: aggregation and recent entries *)

(** [Array.prototype.sort(compareFn)] is stable: elements that compare
    equal keep their relative order.  For a consistent comparator the
    result of a stable sort is unique, so insertion from the right
    computes it. *)
Section Sort.
Context {A : Type}.
Variable compareFn : A -> A -> Z.

Fixpoint sort_insert (x : A) (l : list A) : list A :=
  match l with
  | [] => [x]
  | y :: l' =>
      if (compareFn x y <=? 0)%Z then x :: y :: l'
      else y :: sort_insert x l'
  end.

Fixpoint sort (l : list A) : list A :=
  match l with
  | [] => []
  | x :: l' => sort_insert x (sort l')
  end.
End Sort.

(** [(a, b) => new Date(b.createdAt).getTime() - new Date(a.createdAt).getTime()] *)
Definition byCreatedAtDesc (a b : Balance.t) : Z :=
  (Balance.createdAt b - Balance.createdAt a)%Z.

Record UserBalanceSummary := mkSummary {
  user : User.t;
  totalBalance : number;
  balanceCount : nat;
  lastBalance : option Balance.t
}.

(** [reduce((sum, b) => sum + b.amount, 0)] *)
Definition sum_amounts (bs : list Balance.t) : number :=
  fold_left (fun sum b => num_add sum (Balance.amount b)) bs num_zero.

(** The body of [users.map(user => ...)], lines 24-37.  [sort] works in
    place, so [userBalances.length] is read from the sorted array. *)
Definition summarize (balances : list Balance.t) (user : User.t) : UserBalanceSummary :=
  let userBalances :=
    List.filter (fun b => String.eqb (Balance.userId b) (User.id user)) balances in
  let totalBalance := sum_amounts userBalances in
  let userBalances := sort byCreatedAtDesc userBalances in
  let lastBalance := hd_error userBalances in
  mkSummary user totalBalance (length userBalances) lastBalance.

Definition summaries (users : list User.t) (balances : list Balance.t)
  : list UserBalanceSummary :=
  map (summarize balances) users.

Definition grandTotal (balances : list Balance.t) : number := sum_amounts balances.

Record recentRow := mkRow {
  row_balance : Balance.t;
  row_user : option User.t;
  row_userName : string
}.

Definition UnknownUser : string := "Unknown User".

(** [user?.name || 'Unknown User'] *)
Definition displayName (user : option User.t) : string :=
  match user with
  | Some u => if String.eqb (User.name u) "" then UnknownUser else User.name u
  | None => UnknownUser
  end.

(** Lines 156-164. *)
Definition recentEntries (users : list User.t) (balances : list Balance.t) : list recentRow :=
  map (fun balance =>
         let user := List.find (fun u => String.eqb (User.id u) (Balance.userId balance)) users in
         mkRow balance user (displayName user))
      (firstn 10 (sort byCreatedAtDesc balances)).

(** The component as a whole.  Rendering sorts the [balances] array it was
    given in place, and the effect that computes the summaries runs after
    rendering, on that same array. *)
Definition Reports (users : list User.t) (balances : list Balance.t)
  : list recentRow * list UserBalanceSummary * number :=
  let rows := recentEntries users balances in
  let balances := sort byCreatedAtDesc balances in
  (rows, summaries users balances, grandTotal balances).

(** ** DataManagement.handleImport *)

#[warnings="-register-all"]
Inductive json :=
| JNull
| JBool (b : bool)
| JNumber (n : number)
| JString (s : string)
| JArray (items : list json)
| JObject (members : list (string * json)).

(** What the [try] block of [handleImport] can throw. *)
Inductive exn :=
| SyntaxError
| TypeError
| InvalidFileFormat
| ImportRejected (reason : option DOMException).

Fixpoint member (p : string) (members : list (string * json)) : option json :=
  match members with
  | [] => None
  | (k, v) :: rest => if String.eqb k p then Some v else member p rest
  end.

(** [data.p]: reading a property of [null] throws; a primitive or an array
    has no such property ([undefined], here [None]). *)
Definition get_prop (data : json) (p : string) : exn + option json :=
  match data with
  | JNull => inl TypeError
  | JObject members => inr (member p members)
  | _ => inr None
  end.

Definition is_zero_or_nan (n : number) : bool :=
  match n with
  | S754_zero _ | S754_nan => true
  | _ => false
  end.

(** [!v] *)
Definition falsy (v : option json) : bool :=
  match v with
  | None => true
  | Some JNull => true
  | Some (JBool b) => negb b
  | Some (JNumber n) => is_zero_or_nan n
  | Some (JString s) => String.eqb s ""
  | Some (JArray _) => false
  | Some (JObject _) => false
  end.

(** [Array.isArray(v)], returning the elements. *)
Definition as_array (v : option json) : option (list json) :=
  match v with
  | Some (JArray items) => Some items
  | _ => None
  end.

(** Lines 59-62. *)
Definition validate (data : json) : exn + (list json * list json) :=
  match get_prop data "users" with
  | inl e => inl e
  | inr us =>
      if falsy us then inl InvalidFileFormat
      else
        match get_prop data "balances" with
        | inl e => inl e
        | inr bs =>
            if falsy bs then inl InvalidFileFormat
            else
              match as_array us, as_array bs with
              | Some us', Some bs' => inr (us', bs')
              | _, _ => inl InvalidFileFormat
              end
        end
  end.

Inductive toast :=
| ToastSuccess (nUsers nBalances : nat)
| ToastError.

Section HandleImport.
(** [db.importData(data)] applied to the arrays that were read from the
    file.  [handleImport] passes them on without looking at their
    elements. *)
Variable importData_json :
  list json -> list json -> IDBDatabase -> promise unit * IDBDatabase.

(** The [try] block, lines 56-70; [parsed] is the outcome of
    [JSON.parse(text)]. *)
Definition handleImport_try (parsed : option json) (db : IDBDatabase)
  : (exn + (nat * nat)) * IDBDatabase :=
  match parsed with
  | None => (inl SyntaxError, db)
  | Some data =>
      match validate data with
      | inl e => (inl e, db)
      | inr (us, bs) =>
          match importData_json us bs db with
          | (Resolved _, db') => (inr (length us, length bs), db')
          | (Rejected e, db') => (inl (ImportRejected e), db')
          end
      end
  end.

(** Lines 50-82.  [file] is [None] when no file was chosen. *)
Definition handleImport (file : option (option json)) (db : IDBDatabase)
  : option toast * IDBDatabase :=
  match file with
  | None => (None, db)
  | Some parsed =>
      match handleImport_try parsed db with
      | (inr (nu, nb), db') => (Some (ToastSuccess nu nb), db')
      | (inl _, db') => (Some ToastError, db')
      end
  end.
End HandleImport.

(** The import contract in the words of the specification: the input
    parses as an object whose [users] and [balances] members are both
    sequences. *)
Definition conforming (parsed : option json) : option (list json * list json) :=
  match parsed with
  | Some (JObject members) =>
      match member "users" members, member "balances" members with
      | Some (JArray us), Some (JArray bs) => Some (us, bs)
      | _, _ => None
      end
  | _ => None
  end.

(** ** Vocabulary of the specification *)

(** Some stored User carries this [idNumber]. *)
Definition idNumber_taken (n : string) (db : IDBDatabase) : Prop :=
  exists u, In u (getAllUsers db) /\ User.idNumber u = n.

(** Some stored Balance carries this ([userId], [month]) pair. *)
Definition pair_taken (uid mon : string) (db : IDBDatabase) : Prop :=
  exists b, In b (getAllBalances db) /\ Balance.userId b = uid /\ Balance.month b = mon.

(** A stored Balance with another id carries the pair of [balance]. *)
Definition pair_held_by_other (balance : Balance.t) (db : IDBDatabase) : Prop :=
  exists b, In b (getAllBalances db) /\ Balance.id b <> Balance.id balance /\
            Balance.userId b = Balance.userId balance /\
            Balance.month b = Balance.month balance.

(** A snapshot none of whose records clash with each other on a key or
    on a unique index. *)
Definition clash_free (data : ExportData) : Prop :=
  NoDup (map User.id (users data)) /\
  NoDup (map User.idNumber (users data)) /\
  NoDup (map Balance.id (balances data)) /\
  NoDup (map (fun b => (Balance.userId b, Balance.month b)) (balances data)).

(** The Balances of one user, in the order of the snapshot. *)
Definition balances_of (u : User.t) (balances : list Balance.t) : list Balance.t :=
  List.filter (fun b => bool_decide (Balance.userId b = User.id u)) balances.

(** ** Sample data *)

Definition n100 : number := S754_finite false 7036874417766400 (-46).
Definition n50 : number := S754_finite false 7036874417766400 (-47).
Definition n150 : number := S754_finite false 5277655813324800 (-45).

(** The doubles nearest to 0.1, 0.2 and 0.3. *)
Definition n0_1 : number := S754_finite false 7205759403792794 (-56).
Definition n0_2 : number := S754_finite false 7205759403792794 (-55).
Definition n0_3 : number := S754_finite false 5404319552844595 (-54).

Definition alice : User.fields := User.mkFields "Alice" "555-0100" "1 Main St" "123".
Definition bob : User.fields := User.mkFields "Bob" "555-0101" "2 High St" "123".
Definition carol : User.fields := User.mkFields "Carol" "555-0102" "3 Low St" "456".

Definition jan100 : Balance.fields := Balance.mkFields "u-1" n100 "2024-01" None.
Definition jan50 : Balance.fields := Balance.mkFields "u-1" n50 "2024-01" None.
Definition feb50 : Balance.fields := Balance.mkFields "u-1" n50 "2024-02" (Some "rent").

(** Alice registered. *)
Definition db_alice : IDBDatabase := snd (addUser alice "u-1" 1000 empty_db).

(** Alice with her January balance. *)
Definition db_jan : IDBDatabase := snd (addBalance jan100 "b-1" 2000 db_alice).

(** A record with a new id for a month Alice already has. *)
Definition jan_again : Balance.t := Balance.mk "b-2" "u-1" n50 "2024-01" None 3000.

(** A correction of the January record, and a record for March. *)
Definition jan_fixed : Balance.t := Balance.mk "b-1" "u-1" n150 "2024-01" None 2000.
Definition mar50 : Balance.t := Balance.mk "b-3" "u-1" n50 "2024-03" None 4000.

Definition alice_user : User.t := newUser alice "u-1" 1000.

(** Three balances of Alice created in the same millisecond. *)
Definition tenth : Balance.t := Balance.mk "b-a" "u-1" n0_1 "2024-01" None 5000.
Definition fifth : Balance.t := Balance.mk "b-b" "u-1" n0_2 "2024-02" None 5000.
Definition three_tenths : Balance.t := Balance.mk "b-c" "u-1" n0_3 "2024-03" None 5000.

(** ** Sequences of service calls *)

Inductive call :=
| CallAddUser (user : User.fields) (uuid : string) (now : Z)
| CallAddBalance (balance : Balance.fields) (uuid : string) (now : Z)
| CallUpdateBalance (balance : Balance.t)
| CallImportData (data : ExportData).

(** The database a call leaves behind, whether its promise resolves or
    rejects. *)
Definition run_call (c : call) (db : IDBDatabase) : IDBDatabase :=
  match c with
  | CallAddUser user uuid now => snd (addUser user uuid now db)
  | CallAddBalance balance uuid now => snd (addBalance balance uuid now db)
  | CallUpdateBalance balance => snd (updateBalance balance db)
  | CallImportData data => snd (importData data db)
  end.

Definition run_calls (cs : list call) (db : IDBDatabase) : IDBDatabase :=
  fold_left (fun d c => run_call c d) cs db.

(** A Balance whose [userId] is the id of no User of the snapshot: the
    rows for which [users.find] comes back [undefined]. *)
Definition is_orphan (users : list User.t) (b : Balance.t) : bool :=
  match List.find (fun u => String.eqb (User.id u) (Balance.userId b)) users with
  | Some _ => false
  | None => true
  end.

(** ** UserRegistration.handleSubmit ([UserRegistration.tsx], lines 23-53) *)

Inductive form_toast := ToastValidationError | ToastFormSuccess | ToastFormError.

Definition empty_user_form : User.fields := User.mkFields "" "" "" "".

(** The result holds the toast, the argument of [onUserAdded] when it is
    called, the form state afterwards and the database afterwards. *)
Definition UserRegistration_handleSubmit
    (formData : User.fields) (uuid : string) (now : Z) (db : IDBDatabase)
  : form_toast * option User.t * User.fields * IDBDatabase :=
  if String.eqb (User.f_name formData) ""
     || String.eqb (User.f_phone formData) ""
     || String.eqb (User.f_address formData) ""
     || String.eqb (User.f_idNumber formData) ""
  then (ToastValidationError, None, formData, db)
  else
    match addUser formData uuid now db with
    | (Resolved nu, db') => (ToastFormSuccess, Some nu, empty_user_form, db')
    | (Rejected _, db') => (ToastFormError, None, formData, db')
    end.

(** ** BalanceManagement ([BalanceManagement.tsx]) *)

Record BalanceForm := mkBalanceForm {
  bf_userId : string;
  bf_amount : string;
  bf_month : string;
  bf_description : string
}.

(** [isNaN(x)] *)
Definition isNaN (x : number) : bool :=
  match x with
  | S754_nan => true
  | _ => false
  end.

(** [String(n)] for an integer. *)
Definition String_of_Z (n : Z) : string := NilEmpty.string_of_int (Z.to_int n).

(** The first [n] characters of [pad] repeated without end. *)
Fixpoint cycle (n : nat) (pad cur : string) : string :=
  match n with
  | O => ""
  | S n' =>
      match cur with
      | String c rest => String c (cycle n' pad rest)
      | EmptyString =>
          match pad with
          | String c rest => String c (cycle n' pad rest)
          | EmptyString => ""
          end
      end
  end.

(** [s.padStart(targetLength, padString)] *)
Definition padStart (targetLength : nat) (padString s : string) : string :=
  cycle (targetLength - String.length s) padString padString ++ s.

(** The default month, lines 28-29; [year] is [now.getFullYear()] and
    [monthIndex] is [now.getMonth()]. *)
Definition currentMonth (year : Z) (monthIndex : nat) : string :=
  String_of_Z year ++ "-" ++ padStart 2 "0" (String_of_Z (Z.of_nat monthIndex + 1)).

Definition month_tokens : list string :=
  ["01"; "02"; "03"; "04"; "05"; "06"; "07"; "08"; "09"; "10"; "11"; "12"].

Section BalanceManagement.
(** [parseFloat] of the browser. *)
Variable parseFloat : string -> number.

(** [handleSubmit], lines 33-78.  The result holds the toast, the argument
    of [onBalanceAdded] when it is called, the form state afterwards and
    the database afterwards. *)
Definition BalanceManagement_handleSubmit
    (formData : BalanceForm) (uuid : string) (now : Z) (db : IDBDatabase)
  : form_toast * option Balance.t * BalanceForm * IDBDatabase :=
  if String.eqb (bf_userId formData) ""
     || String.eqb (bf_amount formData) ""
     || String.eqb (bf_month formData) ""
  then (ToastValidationError, None, formData, db)
  else
    let amount := parseFloat (bf_amount formData) in
    if isNaN amount || SFleb amount num_zero
    then (ToastValidationError, None, formData, db)
    else
      match addBalance (Balance.mkFields (bf_userId formData) amount (bf_month formData)
                                         (Some (bf_description formData)))
                       uuid now db with
      | (Resolved nb, db') =>
          (ToastFormSuccess, Some nb,
           mkBalanceForm (bf_userId formData) "" (bf_month formData) "", db')
      | (Rejected _, db') => (ToastFormError, None, formData, db')
      end.
End BalanceManagement.

(** ** Index ([pages/Index.tsx]): the lists the page keeps beside the store *)

Record AppState := mkApp {
  app_db : IDBDatabase;
  app_users : list User.t;
  app_balances : list Balance.t
}.

(** [loadData], lines 15-28. *)
Definition loadData (db : IDBDatabase) : AppState :=
  mkApp db (getAllUsers db) (getAllBalances db).

(** [handleUserAdded] and [handleBalanceAdded], lines 34-40. *)
Definition handleUserAdded (u : User.t) (prev : list User.t) : list User.t :=
  (prev ++ [u])%list.

Definition handleBalanceAdded (b : Balance.t) (prev : list Balance.t) : list Balance.t :=
  (prev ++ [b])%list.

Inductive event :=
| SubmitUser (formData : User.fields) (uuid : string) (now : Z)
| SubmitBalance (formData : BalanceForm) (uuid : string) (now : Z)
| ImportFile (file : option (option json))
| ShowReports.

Definition is_keyed {R : Type} (v : element R) : bool :=
  match v with
  | Keyed _ => true
  | Keyless => false
  end.

Section Index.
Variable parseFloat : string -> number.
(** How [store.add] sees an element of the parsed [users] and [balances]
    arrays. *)
Variable user_of : json -> element User.t.
Variable balance_of : json -> element Balance.t.

(** [db.importData(data)] on the arrays read from the file. *)
Definition importData_json (us bs : list json) (db : IDBDatabase)
  : promise unit * IDBDatabase :=
  importData_unchecked (map user_of us) (map balance_of bs) db.

(** What one user action does to the page.  [onDataImported], hence
    [loadData], runs only after [importData] resolved; showing the reports
    sorts the [balances] array of the page in place. *)
Definition step (st : AppState) (ev : event) : AppState :=
  match ev with
  | SubmitUser formData uuid now =>
      match UserRegistration_handleSubmit formData uuid now (app_db st) with
      | (_, Some u, _, db') => mkApp db' (handleUserAdded u (app_users st)) (app_balances st)
      | (_, None, _, db') => mkApp db' (app_users st) (app_balances st)
      end
  | SubmitBalance formData uuid now =>
      match BalanceManagement_handleSubmit parseFloat formData uuid now (app_db st) with
      | (_, Some b, _, db') =>
          mkApp db' (app_users st) (handleBalanceAdded b (app_balances st))
      | (_, None, _, db') => mkApp db' (app_users st) (app_balances st)
      end
  | ImportFile file =>
      match handleImport importData_json file (app_db st) with
      | (Some (ToastSuccess _ _), db') => loadData db'
      | (_, db') => mkApp db' (app_users st) (app_balances st)
      end
  | ShowReports =>
      mkApp (app_db st) (app_users st) (sort byCreatedAtDesc (app_balances st))
  end.

Definition steps (st : AppState) (evs : list event) : AppState :=
  fold_left step evs st.

(** The event is not the import of a file that passes the validation
    and holds an element without a key. *)
Definition no_keyless_import (ev : event) : bool :=
  match ev with
  | ImportFile (Some (Some data)) =>
      match validate data with
      | inr (us, bs) =>
          forallb (fun j => is_keyed (user_of j)) us
          && forallb (fun j => is_keyed (balance_of j)) bs
      | inl _ => true
      end
  | _ => true
  end.
End Index.

(** The lists of the page hold what the store holds. *)
Definition in_sync (st : AppState) : Prop :=
  Permutation (app_users st) (getAllUsers (app_db st)) /\
  Permutation (app_balances st) (getAllBalances (app_db st)).

(** ** More sample data *)

Definition sample_parseFloat (s : string) : number :=
  if String.eqb s "50" then n50
  else if String.eqb s "100" then n100
  else S754_nan.

Definition string_member (p : string) (members : list (string * json)) : option string :=
  match member p members with
  | Some (JString s) => Some s
  | _ => None
  end.

(** A reading of the elements of a file: an object with the five string
    members of a User is that User, anything else has no key. *)
Definition sample_user_of (j : json) : element User.t :=
  match j with
  | JObject ms =>
      match string_member "id" ms, string_member "name" ms, string_member "phone" ms,
            string_member "address" ms, string_member "idNumber" ms with
      | Some i, Some n, Some p, Some a, Some k => Keyed (User.mk i n p a k 0)
      | _, _, _, _, _ => Keyless
      end
  | _ => Keyless
  end.

Definition sample_balance_of (j : json) : element Balance.t :=
  match j with
  | JObject ms =>
      match string_member "id" ms, string_member "userId" ms,
            string_member "month" ms, member "amount" ms with
      | Some i, Some u, Some m, Some (JNumber x) => Keyed (Balance.mk i u x m None 0)
      | _, _, _, _ => Keyless
      end
  | _ => Keyless
  end.

Definition json_user (i n k : string) : json :=
  JObject [("id", JString i); ("name", JString n); ("phone", JString "555");
           ("address", JString "4 Side St"); ("idNumber", JString k)].

Definition json_balance (i u m : string) (x : number) : json :=
  JObject [("id", JString i); ("userId", JString u); ("month", JString m);
           ("amount", JNumber x)].

(** A file with two users and a balance, and a file whose two users share
    their [idNumber]. *)
Definition good_file : json :=
  JObject [("users", JArray [json_user "u-5" "Dan" "500"; json_user "u-6" "Eve" "600"]);
           ("balances", JArray [json_balance "b-5" "u-5" "2024-05" n100])].

Definition clashing_file : json :=
  JObject [("users", JArray [json_user "u-7" "Fay" "700"; json_user "u-8" "Gil" "700"]);
           ("balances", JArray [])].

(** A file that passes the validation although its only user has no
    [id]. *)
Definition keyless_file : json :=
  JObject [("users", JArray [JObject [("name", JString "Hal")]]);
           ("balances", JArray [])].

Definition carol_user : User.t := newUser carol "u-3" 1600.

Definition feb_form : BalanceForm := mkBalanceForm "u-1" "50" "2024-02" "rent".

Definition older : Balance.t := Balance.mk "b-x" "u-1" n50 "2023-12" None 1000.
Definition newer : Balance.t := Balance.mk "b-y" "u-9" n100 "2024-01" None 2000.

(** * Properties *)

(** ** Object stores *)

Section ObjectStoreFacts.
Context {V : Type}.
Variable key : V -> string.
Variable indexes : list (index V).

Lemma keys_eqb_eq (k1 k2 : list string) : keys_eqb k1 k2 = true <-> k1 = k2.
Proof. unfold keys_eqb. apply bool_decide_eq_true. Qed.

Lemma index_conflict_true (ix : index V) (v : V) (m : gmap string V) :
  index_conflict key ix v m = true <->
  index_unique ix = true /\
  exists k w, m !! k = Some w /\ k <> key v /\
              index_keyPath ix w = index_keyPath ix v.
Proof.
  unfold index_conflict. rewrite andb_true_iff, existsb_exists.
  split.
  - intros [Hu [[k w] [Hin Hc]]]. split; [exact Hu|].
    apply andb_true_iff in Hc as [Hk He]. simpl in *.
    exists k, w. split; [|split].
    + apply elem_of_map_to_list, list_elem_of_In, Hin.
    + apply negb_true_iff, String.eqb_neq in Hk. exact Hk.
    + apply keys_eqb_eq, He.
  - intros [Hu (k & w & Hl & Hk & He)]. split; [exact Hu|].
    exists (k, w). split.
    + apply list_elem_of_In, elem_of_map_to_list, Hl.
    + simpl. apply andb_true_iff. split.
      * apply negb_true_iff, String.eqb_neq, Hk.
      * apply keys_eqb_eq, He.
Qed.

Lemma any_conflict_true (v : V) (m : gmap string V) :
  any_conflict key indexes v m = true <->
  exists ix, In ix indexes /\ index_unique ix = true /\
    exists k w, m !! k = Some w /\ k <> key v /\
                index_keyPath ix w = index_keyPath ix v.
Proof.
  unfold any_conflict. rewrite existsb_exists. split.
  - intros [ix [Hin Hc]]. apply index_conflict_true in Hc as [Hu Hex]. eauto.
  - intros [ix (Hin & Hu & Hex)]. exists ix. split; [exact Hin|].
    apply index_conflict_true. eauto.
Qed.

Lemma any_conflict_false (v : V) (m : gmap string V) :
  any_conflict key indexes v m = false <->
  forall ix, In ix indexes -> index_unique ix = true ->
    forall k w, m !! k = Some w -> k <> key v ->
                index_keyPath ix w <> index_keyPath ix v.
Proof.
  rewrite <- not_true_iff_false, any_conflict_true. split.
  - intros Hn ix Hin Hu k w Hl Hk He. apply Hn. exists ix. eauto 8.
  - intros Hall [ix (Hin & Hu & k & w & Hl & Hk & He)].
    exact (Hall ix Hin Hu k w Hl Hk He).
Qed.

Lemma store_ok_empty : store_ok key indexes ∅.
Proof.
  split.
  - intros k v H. rewrite lookup_empty in H. discriminate.
  - intros ix _ _ k1 v1 k2 v2 H. rewrite lookup_empty in H. discriminate.
Qed.

(** Writing a record that conflicts with no other record keeps the
    store well formed; this covers both [add] and [put]. *)
Lemma store_ok_insert (v : V) (m : gmap string V) :
  store_ok key indexes m ->
  any_conflict key indexes v m = false ->
  store_ok key indexes (<[key v := v]> m).
Proof.
  intros [Hk Hu] Hc. rewrite any_conflict_false in Hc. split.
  - intros k w Hl. apply lookup_insert_Some in Hl as [[<- <-]|[_ Hl]]; eauto.
  - intros ix Hin Hix k1 v1 k2 v2 H1 H2 He.
    apply lookup_insert_Some in H1 as [[<- <-]|[Hn1 H1]];
      apply lookup_insert_Some in H2 as [[<- <-]|[Hn2 H2]].
    + reflexivity.
    + exfalso. apply (Hc ix Hin Hix k2 v2 H2); [congruence|]. congruence.
    + exfalso. apply (Hc ix Hin Hix k1 v1 H1); [congruence|]. congruence.
    + eapply Hu; eauto.
Qed.

Lemma store_add_ok (v : V) (m m' : gmap string V) :
  store_ok key indexes m -> store_add key indexes v m = inr m' ->
  store_ok key indexes m'.
Proof.
  unfold store_add. intros Hok H.
  destruct (m !! key v); [discriminate|].
  destruct (any_conflict key indexes v m) eqn:Hc; [discriminate|].
  injection H as <-. apply store_ok_insert; assumption.
Qed.

Lemma store_put_ok (v : V) (m m' : gmap string V) :
  store_ok key indexes m -> store_put key indexes v m = inr m' ->
  store_ok key indexes m'.
Proof.
  unfold store_put. intros Hok H.
  destruct (any_conflict key indexes v m) eqn:Hc; [discriminate|].
  injection H as <-. apply store_ok_insert; assumption.
Qed.

Lemma store_add_inr (v : V) (m m' : gmap string V) :
  store_add key indexes v m = inr m' ->
  m !! key v = None /\ any_conflict key indexes v m = false /\
  m' = <[key v := v]> m.
Proof.
  unfold store_add. intros H.
  destruct (m !! key v); [discriminate|].
  destruct (any_conflict key indexes v m); [discriminate|].
  injection H as <-. auto.
Qed.

Lemma store_add_inl (v : V) (m : gmap string V) (e : DOMException) :
  store_add key indexes v m = inl e -> e = ConstraintError.
Proof.
  unfold store_add. intros H.
  destruct (m !! key v); [congruence|].
  destruct (any_conflict key indexes v m); congruence.
Qed.

Lemma store_getAll_insert (v : V) (k : string) (m : gmap string V) :
  m !! k = None ->
  Permutation (store_getAll (<[k := v]> m)) (v :: store_getAll m).
Proof.
  intros Hn. unfold store_getAll.
  change (v :: map snd (map_to_list m)) with (map snd ((k, v) :: map_to_list m)).
  apply Permutation_map. apply map_to_list_insert, Hn.
Qed.

Lemma store_getAll_empty : store_getAll (∅ : gmap string V) = [].
Proof. unfold store_getAll. rewrite map_to_list_empty. reflexivity. Qed.

Lemma In_store_getAll (v : V) (m : gmap string V) :
  In v (store_getAll m) <-> exists k, m !! k = Some v.
Proof.
  unfold store_getAll. rewrite in_map_iff. split.
  - intros [[k w] [Hs Hin]]. simpl in Hs. subst w. exists k.
    apply elem_of_map_to_list, list_elem_of_In, Hin.
  - intros [k Hl]. exists (k, v). split; [reflexivity|].
    apply list_elem_of_In, elem_of_map_to_list, Hl.
Qed.

(** A successful [forEach ... add] stores exactly the given records on
    top of what was there. *)
Lemma add_all_getAll (vs : list V) (m m' : gmap string V) :
  add_all key indexes vs m = inr m' ->
  Permutation (store_getAll m') (vs ++ store_getAll m).
Proof.
  revert m. induction vs as [|v vs IH]; intros m H; simpl in *.
  - injection H as <-. reflexivity.
  - destruct (store_add key indexes v m) as [e|m1] eqn:Ha; [discriminate|].
    apply store_add_inr in Ha as (Hn & _ & ->).
    rewrite (IH _ H).
    rewrite (store_getAll_insert v (key v) m Hn).
    symmetry. apply Permutation_middle.
Qed.

Lemma add_all_inl (vs : list V) (m : gmap string V) (e : DOMException) :
  add_all key indexes vs m = inl e -> e = ConstraintError.
Proof.
  revert m. induction vs as [|v vs IH]; intros m H; simpl in *; [discriminate|].
  destruct (store_add key indexes v m) as [e'|m1] eqn:Ha.
  - injection H as <-. eapply store_add_inl, Ha.
  - eapply IH, H.
Qed.

(** Adding back records taken from a well-formed store never fails. *)
Lemma add_all_within (target : gmap string V) (vs : list V) (acc : gmap string V) :
  store_ok key indexes target ->
  (forall v, In v vs -> target !! key v = Some v) ->
  NoDup (map key vs) ->
  acc ⊆ target ->
  (forall v, In v vs -> acc !! key v = None) ->
  exists m', add_all key indexes vs acc = inr m' /\ m' ⊆ target /\
             (forall v, In v vs -> m' !! key v = Some v).
Proof.
  intros [Hk Hu]. revert acc.
  induction vs as [|v vs IH]; intros acc Hin Hnd Hsub Hfresh; simpl.
  - exists acc. split; [reflexivity|]. split; [exact Hsub|]. intros v [].
  - assert (Hv : target !! key v = Some v) by (apply Hin; left; reflexivity).
    unfold store_add. rewrite (Hfresh v (or_introl eq_refl)).
    assert (Hc : any_conflict key indexes v acc = false).
    { apply any_conflict_false. intros ix Hix Hun k w Hl Hne He.
      apply Hne. eapply (Hu ix Hix Hun); [|exact Hv|exact He].
      eapply lookup_weaken; eassumption. }
    rewrite Hc.
    apply NoDup_cons in Hnd as [Hnotin Hnd].
    destruct (IH (<[key v := v]> acc)) as (m' & Hm' & Hsub' & Hall).
    + intros w Hw. apply Hin. right. exact Hw.
    + exact Hnd.
    + apply insert_subseteq_l; assumption.
    + intros w Hw. rewrite lookup_insert_ne.
      * apply Hfresh. right. exact Hw.
      * intros Heq. apply Hnotin. apply list_elem_of_In.
        rewrite Heq. apply in_map, Hw.
    + exists m'. split; [exact Hm'|]. split; [exact Hsub'|].
      intros w [<-|Hw]; [|apply Hall, Hw].
      assert (Hle : <[key v := v]> acc ⊆ m').
      { clear -Hm'. revert Hm'. generalize (<[key v := v]> acc).
        induction vs as [|x xs IHx]; intros a Ha; simpl in Ha.
        - injection Ha as <-. reflexivity.
        - destruct (store_add key indexes x a) as [e|a1] eqn:Hx; [discriminate|].
          apply store_add_inr in Hx as (Hn & _ & ->).
          etransitivity; [|apply IHx, Ha]. apply insert_subseteq, Hn. }
      eapply lookup_weaken; [|exact Hle]. apply lookup_insert_eq.
Qed.

Lemma add_all_reimport (m : gmap string V) :
  store_ok key indexes m ->
  add_all key indexes (store_getAll m) ∅ = inr m.
Proof.
  intros Hok.
  destruct (add_all_within m (store_getAll m) ∅ Hok) as (m' & Hm' & Hsub & Hall).
  - intros v Hv. apply In_store_getAll in Hv as [k Hl].
    destruct Hok as [Hk _]. rewrite (Hk k v Hl). exact Hl.
  - unfold store_getAll. rewrite map_map.
    rewrite (map_ext_in _ fst).
    + apply NoDup_fst_map_to_list.
    + intros [k v] Hin. simpl. destruct Hok as [Hk _]. apply Hk.
      apply elem_of_map_to_list, list_elem_of_In, Hin.
  - apply map_empty_subseteq.
  - intros v _. apply lookup_empty.
  - rewrite Hm'. f_equal. apply map_eq. intros k.
    destruct (m !! k) as [v|] eqn:Hl.
    + assert (Hkv : key v = k) by (destruct Hok as [Hk _]; eauto).
      rewrite <- Hkv. apply Hall. apply In_store_getAll. eauto.
    + destruct (m' !! k) as [w|] eqn:Hl'; [|reflexivity].
      rewrite (lookup_weaken _ _ _ _ Hl' Hsub) in Hl. discriminate.
Qed.
End ObjectStoreFacts.

(** ** Transactions and the service *)

Lemma run_requests_app (rs1 rs2 : list request) (w : IDBDatabase) :
  run_requests false (rs1 ++ rs2) w =
  match run_requests false rs1 w with
  | inr w' => run_requests false rs2 w'
  | inl e => inl e
  end.
Proof.
  revert w. induction rs1 as [|r rs1 IH]; intros w; simpl; [reflexivity|].
  destruct (exec r w) as [e|w']; [reflexivity|apply IH].
Qed.

Lemma run_add_users (us : list User.t) (w : IDBDatabase) :
  run_requests false (map AddUser us) w =
  match add_all User.id users_indexes us (db_users w) with
  | inr m => inr (mkDB m (db_balances w))
  | inl e => inl e
  end.
Proof.
  revert w. induction us as [|u us IH]; intros [mu mb]; simpl; [reflexivity|].
  destruct (store_add User.id users_indexes u mu) as [e|m1]; [reflexivity|].
  apply IH.
Qed.

Lemma run_add_balances (bs : list Balance.t) (w : IDBDatabase) :
  run_requests false (map AddBalance bs) w =
  match add_all Balance.id balances_indexes bs (db_balances w) with
  | inr m => inr (mkDB (db_users w) m)
  | inl e => inl e
  end.
Proof.
  revert w. induction bs as [|b bs IH]; intros [mu mb]; simpl; [reflexivity|].
  destruct (store_add Balance.id balances_indexes b mb) as [e|m1]; [reflexivity|].
  apply IH.
Qed.

(** [importData] in closed form: both stores are rebuilt from empty, and
    the first failing [add] gives the database back as it was. *)
Lemma importData_unfold (data : ExportData) (db : IDBDatabase) :
  importData data db =
  match add_all User.id users_indexes (users data) ∅ with
  | inl e => (Rejected None, db)
  | inr mu =>
      match add_all Balance.id balances_indexes (balances data) ∅ with
      | inl e => (Rejected None, db)
      | inr mb => (Resolved tt, mkDB mu mb)
      end
  end.
Proof.
  unfold importData, transaction, import_requests.
  change (([ClearUsers; ClearBalances] ++ ?l)%list) with (ClearUsers :: ClearBalances :: l).
  cbn [run_requests exec]. unfold store_clear. cbn [db_users db_balances].
  rewrite run_requests_app, run_add_users. cbn [db_users db_balances].
  destruct (add_all User.id users_indexes (users data) ∅) as [e|mu]; [reflexivity|].
  rewrite run_add_balances. cbn [db_users db_balances].
  destruct (add_all Balance.id balances_indexes (balances data) ∅) as [e|mb];
    reflexivity.
Qed.

Lemma db_ok_empty : db_ok empty_db.
Proof. split; apply store_ok_empty. Qed.

Lemma exec_ok (r : request) (w w' : IDBDatabase) :
  db_ok w -> exec r w = inr w' -> db_ok w'.
Proof.
  intros [Hu Hb] H. destruct r; simpl in H.
  - injection H as <-. split; [apply store_ok_empty|exact Hb].
  - injection H as <-. split; [exact Hu|apply store_ok_empty].
  - destruct (store_add User.id users_indexes u (db_users w)) as [e|m] eqn:Ha;
      [discriminate|]. injection H as <-.
    split; [eapply store_add_ok; eassumption|exact Hb].
  - destruct (store_add Balance.id balances_indexes b (db_balances w)) as [e|m] eqn:Ha;
      [discriminate|]. injection H as <-.
    split; [exact Hu|eapply store_add_ok; eassumption].
  - destruct (store_put Balance.id balances_indexes b (db_balances w)) as [e|m] eqn:Ha;
      [discriminate|]. injection H as <-.
    split; [exact Hu|eapply store_put_ok; eassumption].
Qed.

(** Every transaction of the service keeps the database well formed. *)
Lemma transaction_ok (rs : list request) (db : IDBDatabase) :
  db_ok db -> db_ok (snd (transaction false rs db)).
Proof.
  intros Hok. unfold transaction.
  destruct (run_requests false rs db) as [e|db'] eqn:Hr; simpl; [exact Hok|].
  revert db Hok Hr. induction rs as [|r rs IH]; intros db Hok Hr; simpl in Hr.
  - injection Hr as <-. exact Hok.
  - destruct (exec r db) as [e|w] eqn:He; [discriminate|].
    eapply IH; [|exact Hr]. eapply exec_ok; eassumption.
Qed.

Lemma addUser_ok user uuid now db : db_ok db -> db_ok (snd (addUser user uuid now db)).
Proof.
  intros Hok. unfold addUser.
  pose proof (transaction_ok [AddUser (newUser user uuid now)] db Hok) as H.
  destruct (transaction false _ db) as [[|e] db']; exact H.
Qed.

Lemma addBalance_ok balance uuid now db :
  db_ok db -> db_ok (snd (addBalance balance uuid now db)).
Proof.
  intros Hok. unfold addBalance.
  pose proof (transaction_ok [AddBalance (newBalance balance uuid now)] db Hok) as H.
  destruct (transaction false _ db) as [[|e] db']; exact H.
Qed.

Lemma updateBalance_ok balance db : db_ok db -> db_ok (snd (updateBalance balance db)).
Proof.
  intros Hok. unfold updateBalance.
  pose proof (transaction_ok [PutBalance balance] db Hok) as H.
  destruct (transaction false _ db) as [[|e] db']; exact H.
Qed.

Lemma importData_ok data db : db_ok db -> db_ok (snd (importData data db)).
Proof.
  intros Hok. unfold importData.
  pose proof (transaction_ok (import_requests data) db Hok) as H.
  destruct (transaction false _ db) as [[|e] db']; exact H.
Qed.

(** C2.  Exporting and at once importing the exported snapshot succeeds
    and gives back the very same database, so [getAllUsers] and
    [getAllBalances] return what they returned before the export. *)
Theorem export_import_idempotent (now : Z) (db : IDBDatabase) :
  db_ok db ->
  importData (exportData now db) db = (Resolved tt, db) /\
  getAllUsers (snd (importData (exportData now db) db)) = getAllUsers db /\
  getAllBalances (snd (importData (exportData now db) db)) = getAllBalances db.
Proof.
  intros [Hu Hb].
  assert (H : importData (exportData now db) db = (Resolved tt, db)).
  { rewrite importData_unfold. unfold exportData, getAllUsers, getAllBalances.
    cbn [users balances].
    rewrite (add_all_reimport User.id users_indexes _ Hu).
    rewrite (add_all_reimport Balance.id balances_indexes _ Hb).
    destruct db; reflexivity. }
  rewrite H. auto.
Qed.

Lemma In_getAllUsers (u : User.t) (db : IDBDatabase) :
  In u (getAllUsers db) <-> exists k, db_users db !! k = Some u.
Proof. apply In_store_getAll. Qed.

Lemma In_getAllBalances (b : Balance.t) (db : IDBDatabase) :
  In b (getAllBalances db) <-> exists k, db_balances db !! k = Some b.
Proof. apply In_store_getAll. Qed.

Lemma idNumber_index : In (mkIndex "idNumber" (fun u => [User.idNumber u]) true) users_indexes.
Proof. right. left. reflexivity. Qed.

Lemma userMonth_index :
  In (mkIndex "userMonth" (fun b => [Balance.userId b; Balance.month b]) true)
     balances_indexes.
Proof. right. right. left. reflexivity. Qed.

(** For the schema of [initDB], a user conflicts exactly when another key
    holds its [idNumber]. *)
Lemma users_conflict_false (u : User.t) (m : gmap string User.t) :
  any_conflict User.id users_indexes u m = false <->
  forall k w, m !! k = Some w -> k <> User.id u -> User.idNumber w <> User.idNumber u.
Proof.
  rewrite any_conflict_false. split.
  - intros H k w Hl Hk He.
    apply (H _ idNumber_index eq_refl k w Hl Hk). simpl. congruence.
  - intros H ix [<-|[<-|[]]] Hu k w Hl Hk He; simpl in *; [discriminate|].
    apply (H k w Hl Hk). congruence.
Qed.

Lemma balances_conflict_false (b : Balance.t) (m : gmap string Balance.t) :
  any_conflict Balance.id balances_indexes b m = false <->
  forall k w, m !! k = Some w -> k <> Balance.id b ->
    ~ (Balance.userId w = Balance.userId b /\ Balance.month w = Balance.month b).
Proof.
  rewrite any_conflict_false. split.
  - intros H k w Hl Hk [He1 He2].
    apply (H _ userMonth_index eq_refl k w Hl Hk). simpl. congruence.
  - intros H ix [<-|[<-|[<-|[]]]] Hu k w Hl Hk He; simpl in *; try discriminate.
    apply (H k w Hl Hk). split; congruence.
Qed.

(** C3.  When some stored User already has the [idNumber], [addUser]
    rejects with a constraint violation and the database, hence the User
    collection and its size, is unchanged.  When no stored User has it
    (and the generated UUID is not yet a key), [addUser] resolves with the
    new User, carrying the generated id and timestamp, and the collection
    grows by exactly that User. *)
Theorem addUser_unique_idNumber
    (user : User.fields) (uuid : string) (now : Z) (db : IDBDatabase) :
  (idNumber_taken (User.f_idNumber user) db ->
     addUser user uuid now db = (Rejected (Some ConstraintError), db) /\
     length (getAllUsers (snd (addUser user uuid now db))) = length (getAllUsers db))
  /\
  (~ idNumber_taken (User.f_idNumber user) db ->
   getUserById uuid db = None ->
     exists u db',
       addUser user uuid now db = (Resolved u, db') /\
       User.id u = uuid /\ User.createdAt u = now /\
       getUserById uuid db' = Some u /\
       Permutation (getAllUsers db') (u :: getAllUsers db) /\
       getAllBalances db' = getAllBalances db).
Proof.
  split.
  - intros (w & Hin & Hid).
    assert (H : addUser user uuid now db = (Rejected (Some ConstraintError), db)).
    { apply In_getAllUsers in Hin as [k Hl].
      unfold addUser, transaction. cbn [run_requests exec]. unfold store_add.
      destruct (db_users db !! User.id (newUser user uuid now)) eqn:Hk; [reflexivity|].
      destruct (any_conflict User.id users_indexes (newUser user uuid now) (db_users db))
        eqn:Hc; [reflexivity|].
      exfalso. rewrite users_conflict_false in Hc.
      apply (Hc k w Hl); [|exact Hid].
      intros ->. rewrite Hl in Hk. discriminate. }
    rewrite H. auto.
  - intros Hfree Hnew. unfold getUserById, store_get in *.
    exists (newUser user uuid now),
           (mkDB (<[uuid := newUser user uuid now]> (db_users db)) (db_balances db)).
    assert (Hc : any_conflict User.id users_indexes (newUser user uuid now) (db_users db)
                 = false).
    { apply users_conflict_false. intros k w Hl _ He. apply Hfree.
      exists w. split; [|exact He]. apply In_getAllUsers. eauto. }
    split; [|split; [reflexivity|split; [reflexivity|split; [|split]]]].
    + unfold addUser, transaction. cbn [run_requests exec]. unfold store_add.
      cbn [User.id newUser]. rewrite Hnew.
      rewrite Hc. reflexivity.
    + cbn [db_users]. apply lookup_insert_eq.
    + unfold getAllUsers. cbn [db_users]. apply store_getAll_insert, Hnew.
    + reflexivity.
Qed.

(** C4.  When some stored Balance already has the ([userId], [month])
    pair, [addBalance] rejects with a constraint violation and the
    database, hence the Balance collection and its size, is unchanged.
    When no stored Balance has the pair (and the generated UUID is not yet
    a key), [addBalance] resolves with the new Balance, carrying the
    generated id and timestamp, and the collection grows by exactly that
    Balance. *)
Theorem addBalance_unique_pair
    (balance : Balance.fields) (uuid : string) (now : Z) (db : IDBDatabase) :
  (pair_taken (Balance.f_userId balance) (Balance.f_month balance) db ->
     addBalance balance uuid now db = (Rejected (Some ConstraintError), db) /\
     length (getAllBalances (snd (addBalance balance uuid now db)))
       = length (getAllBalances db))
  /\
  (~ pair_taken (Balance.f_userId balance) (Balance.f_month balance) db ->
   store_get uuid (db_balances db) = None ->
     exists b db',
       addBalance balance uuid now db = (Resolved b, db') /\
       Balance.id b = uuid /\ Balance.createdAt b = now /\
       store_get uuid (db_balances db') = Some b /\
       Permutation (getAllBalances db') (b :: getAllBalances db) /\
       getAllUsers db' = getAllUsers db).
Proof.
  split.
  - intros (w & Hin & Hu & Hm).
    assert (H : addBalance balance uuid now db = (Rejected (Some ConstraintError), db)).
    { apply In_getAllBalances in Hin as [k Hl].
      unfold addBalance, transaction. cbn [run_requests exec]. unfold store_add.
      destruct (db_balances db !! Balance.id (newBalance balance uuid now)) eqn:Hk;
        [reflexivity|].
      destruct (any_conflict Balance.id balances_indexes (newBalance balance uuid now)
                  (db_balances db)) eqn:Hc; [reflexivity|].
      exfalso. rewrite balances_conflict_false in Hc.
      apply (Hc k w Hl); [|split; [exact Hu|exact Hm]].
      intros ->. rewrite Hl in Hk. discriminate. }
    rewrite H. auto.
  - intros Hfree Hnew. unfold store_get in *.
    exists (newBalance balance uuid now),
           (mkDB (db_users db) (<[uuid := newBalance balance uuid now]> (db_balances db))).
    assert (Hc : any_conflict Balance.id balances_indexes (newBalance balance uuid now)
                   (db_balances db) = false).
    { apply balances_conflict_false. intros k w Hl _ [He1 He2]. apply Hfree.
      exists w. split; [|split; [exact He1|exact He2]]. apply In_getAllBalances. eauto. }
    split; [|split; [reflexivity|split; [reflexivity|split; [|split]]]].
    + unfold addBalance, transaction. cbn [run_requests exec]. unfold store_add.
      cbn [Balance.id newBalance]. rewrite Hnew.
      rewrite Hc. reflexivity.
    + cbn [db_balances]. apply lookup_insert_eq.
    + unfold getAllBalances. cbn [db_balances]. apply store_getAll_insert, Hnew.
    + reflexivity.
Qed.

Lemma db_alice_ok : db_ok db_alice.
Proof. apply addUser_ok, db_ok_empty. Qed.

Lemma db_jan_ok : db_ok db_jan.
Proof. apply addBalance_ok, db_alice_ok. Qed.

Lemma getAllUsers_db_alice : getAllUsers db_alice = [alice_user].
Proof. vm_compute. reflexivity. Qed.

Lemma getAllBalances_db_jan : getAllBalances db_jan = [newBalance jan100 "b-1" 2000].
Proof. vm_compute. reflexivity. Qed.

Lemma addUser_unique_idNumber_witness :
  addUser bob "u-2" 1500 db_alice = (Rejected (Some ConstraintError), db_alice) /\
  exists u db', addUser carol "u-3" 1600 db_alice = (Resolved u, db') /\
                User.id u = "u-3" /\ User.createdAt u = 1600%Z.
Proof.
  split.
  - apply (addUser_unique_idNumber bob "u-2" 1500 db_alice).
    exists alice_user. rewrite getAllUsers_db_alice.
    split; [left; reflexivity|reflexivity].
  - destruct (proj2 (addUser_unique_idNumber carol "u-3" 1600 db_alice))
      as (u & db' & H & Hid & Ht & _).
    + intros (w & Hin & Hw). rewrite getAllUsers_db_alice in Hin.
      destruct Hin as [<-|[]]. discriminate Hw.
    + vm_compute. reflexivity.
    + exists u, db'. auto.
Defined.

Lemma addBalance_unique_pair_witness :
  addBalance jan50 "b-2" 3000 db_jan = (Rejected (Some ConstraintError), db_jan) /\
  exists b db', addBalance feb50 "b-3" 3500 db_jan = (Resolved b, db') /\
                Balance.id b = "b-3" /\ Balance.createdAt b = 3500%Z.
Proof.
  split.
  - apply (addBalance_unique_pair jan50 "b-2" 3000 db_jan).
    exists (newBalance jan100 "b-1" 2000). rewrite getAllBalances_db_jan.
    split; [left; reflexivity|split; reflexivity].
  - destruct (proj2 (addBalance_unique_pair feb50 "b-3" 3500 db_jan))
      as (b & db' & H & Hid & Ht & _).
    + intros (w & Hin & Hu & Hm). rewrite getAllBalances_db_jan in Hin.
      destruct Hin as [<-|[]]. discriminate Hm.
    + vm_compute. reflexivity.
    + exists b, db'. auto.
Defined.

Lemma export_import_idempotent_witness :
  importData (exportData 9000 db_jan) db_jan = (Resolved tt, db_jan).
Proof. apply (export_import_idempotent 9000 db_jan db_jan_ok). Defined.

(** The first example of the specification: a second balance for the same
    user and month is refused, one for another month is accepted. *)
Example spec_example_balances :
  fst (addBalance jan50 "b-2" 3000 db_jan) = Rejected (Some ConstraintError) /\
  fst (addBalance feb50 "b-3" 3500 db_jan) = Resolved (newBalance feb50 "b-3" 3500).
Proof. split; vm_compute; reflexivity. Qed.

(** The second example of the specification: importing the empty snapshot
    empties a non-empty store. *)
Example spec_example_import_empty :
  let db' := snd (importData (mkExportData [] [] 0) db_jan) in
  getAllUsers db_jan <> [] /\ getAllUsers db' = [] /\ getAllBalances db' = [].
Proof. vm_compute. repeat split. discriminate. Qed.

(** An import that fails on its last insert: the prior records stay. *)
Example import_failure_keeps_prior_state :
  importData (mkExportData [newUser carol "u-3" 1600]
                           [mar50; jan_again; mar50] 0) db_jan
  = (Rejected None, db_jan).
Proof. vm_compute. reflexivity. Qed.

(** C9, as stated, fails: [put] is still subject to the unique
    ([userId], [month]) index, so an update whose pair is held by a record
    with another id is rejected instead of inserted. *)
Lemma updateBalance_rejects_taken_pair :
  db_ok db_jan /\
  store_get (Balance.id jan_again) (db_balances db_jan) = None /\
  updateBalance jan_again db_jan = (Rejected (Some ConstraintError), db_jan).
Proof.
  split; [exact db_jan_ok|]. split; vm_compute; reflexivity.
Qed.

(** C9, amended.  In a well-formed store, [updateBalance] writes the given
    record under its id, replacing the record stored there or inserting
    it when there was none, and touches no other record, provided no
    record with another id holds the same ([userId], [month]) pair; when
    one does, the call rejects with a constraint violation and the
    database is unchanged. *)
Theorem updateBalance_upsert (balance : Balance.t) (db : IDBDatabase) :
  db_ok db ->
  (pair_held_by_other balance db ->
     updateBalance balance db = (Rejected (Some ConstraintError), db))
  /\
  (~ pair_held_by_other balance db ->
     exists db',
       updateBalance balance db = (Resolved balance, db') /\
       store_get (Balance.id balance) (db_balances db') = Some balance /\
       (forall k, k <> Balance.id balance ->
                  store_get k (db_balances db') = store_get k (db_balances db)) /\
       db_users db' = db_users db).
Proof.
  intros [_ [Hk _]]. split.
  - intros (w & Hin & Hne & Hu & Hm).
    apply In_getAllBalances in Hin as [k Hl].
    unfold updateBalance, transaction. cbn [run_requests exec]. unfold store_put.
    destruct (any_conflict Balance.id balances_indexes balance (db_balances db))
      eqn:Hc; [reflexivity|].
    exfalso. rewrite balances_conflict_false in Hc.
    apply (Hc k w Hl); [|split; assumption].
    rewrite <- (Hk k w Hl). exact Hne.
  - intros Hfree.
    exists (mkDB (db_users db) (<[Balance.id balance := balance]> (db_balances db))).
    assert (Hc : any_conflict Balance.id balances_indexes balance (db_balances db) = false).
    { apply balances_conflict_false. intros k w Hl Hne [He1 He2]. apply Hfree.
      exists w. split; [apply In_getAllBalances; eauto|].
      split; [rewrite (Hk k w Hl); exact Hne|]. split; assumption. }
    unfold store_get. cbn [db_balances db_users].
    split; [|split; [apply lookup_insert_eq|split; [|reflexivity]]].
    + unfold updateBalance, transaction. cbn [run_requests exec]. unfold store_put.
      rewrite Hc. reflexivity.
    + intros k Hne. apply lookup_insert_ne. congruence.
Qed.

Lemma updateBalance_upsert_witness :
  updateBalance jan_again db_jan = (Rejected (Some ConstraintError), db_jan) /\
  (exists db', updateBalance jan_fixed db_jan = (Resolved jan_fixed, db') /\
               getAllBalances db' = [jan_fixed]) /\
  (exists db', updateBalance mar50 db_jan = (Resolved mar50, db') /\
               length (getAllBalances db') = 2).
Proof.
  split; [|split].
  - apply (updateBalance_upsert jan_again db_jan db_jan_ok).
    exists (newBalance jan100 "b-1" 2000). rewrite getAllBalances_db_jan.
    split; [left; reflexivity|]. split; [discriminate|]. split; reflexivity.
  - destruct (proj2 (updateBalance_upsert jan_fixed db_jan db_jan_ok))
      as (db' & H & _).
    + intros (w & Hin & Hne & _). rewrite getAllBalances_db_jan in Hin.
      destruct Hin as [<-|[]]. apply Hne. reflexivity.
    + exists db'. split; [exact H|].
      assert (E : db' = snd (updateBalance jan_fixed db_jan)) by (rewrite H; reflexivity).
      rewrite E. vm_compute. reflexivity.
  - destruct (proj2 (updateBalance_upsert mar50 db_jan db_jan_ok))
      as (db' & H & _).
    + intros (w & Hin & _ & _ & Hm). rewrite getAllBalances_db_jan in Hin.
      destruct Hin as [<-|[]]. discriminate Hm.
    + exists db'. split; [exact H|].
      assert (E : db' = snd (updateBalance mar50 db_jan)) by (rewrite H; reflexivity).
      rewrite E. vm_compute. reflexivity.
Defined.

(** C10.  A User or Balance that [addUser] or [addBalance] resolves with
    carries every supplied field unchanged, next to the generated id and
    timestamp, and it is this record that the store holds afterwards. *)
Theorem add_keeps_supplied_fields :
  (forall (user : User.fields) uuid now db u db',
     addUser user uuid now db = (Resolved u, db') ->
     User.name u = User.f_name user /\
     User.phone u = User.f_phone user /\
     User.address u = User.f_address user /\
     User.idNumber u = User.f_idNumber user /\
     User.id u = uuid /\ User.createdAt u = now /\
     getUserById (User.id u) db' = Some u)
  /\
  (forall (balance : Balance.fields) uuid now db b db',
     addBalance balance uuid now db = (Resolved b, db') ->
     Balance.userId b = Balance.f_userId balance /\
     Balance.amount b = Balance.f_amount balance /\
     Balance.month b = Balance.f_month balance /\
     Balance.description b = Balance.f_description balance /\
     Balance.id b = uuid /\ Balance.createdAt b = now /\
     In b (getAllBalances db') /\
     In b (getBalancesByUserId (Balance.userId b) db')).
Proof.
  split.
  - intros user uuid now db u db' H.
    unfold addUser, transaction in H. cbn [run_requests exec] in H.
    destruct (store_add User.id users_indexes (newUser user uuid now) (db_users db))
      as [e|m] eqn:Ha; [discriminate|].
    injection H as <- <-. apply store_add_inr in Ha as (_ & _ & ->).
    repeat split. unfold getUserById, store_get. cbn [db_users].
    apply lookup_insert_eq.
  - intros balance uuid now db b db' H.
    unfold addBalance, transaction in H. cbn [run_requests exec] in H.
    destruct (store_add Balance.id balances_indexes (newBalance balance uuid now)
                (db_balances db)) as [e|m] eqn:Ha; [discriminate|].
    injection H as <- <-. apply store_add_inr in Ha as (_ & _ & ->).
    assert (Hin : In (newBalance balance uuid now)
                     (store_getAll (<[uuid := newBalance balance uuid now]>
                                      (db_balances db)))).
    { apply In_store_getAll. exists uuid. apply lookup_insert_eq. }
    repeat split; try exact Hin.
    unfold getBalancesByUserId, index_getAll. cbn [db_balances].
    apply filter_In. split; [exact Hin|]. apply keys_eqb_eq. reflexivity.
Qed.

Lemma add_keeps_supplied_fields_witness :
  (exists u db', addUser alice "u-1" 1000 empty_db = (Resolved u, db') /\
                 User.name u = "Alice" /\ User.idNumber u = "123") /\
  (exists b db', addBalance feb50 "b-3" 3500 db_jan = (Resolved b, db') /\
                 Balance.amount b = n50 /\ Balance.description b = Some "rent").
Proof.
  split.
  - exists alice_user, db_alice.
    assert (H : addUser alice "u-1" 1000 empty_db = (Resolved alice_user, db_alice))
      by (vm_compute; reflexivity).
    split; [exact H|].
    destruct (proj1 add_keeps_supplied_fields _ _ _ _ _ _ H) as (Hn & _ & _ & Hi & _).
    split; [exact Hn|exact Hi].
  - exists (newBalance feb50 "b-3" 3500), (snd (addBalance feb50 "b-3" 3500 db_jan)).
    assert (H : addBalance feb50 "b-3" 3500 db_jan
                = (Resolved (newBalance feb50 "b-3" 3500),
                   snd (addBalance feb50 "b-3" 3500 db_jan)))
      by (vm_compute; reflexivity).
    split; [exact H|].
    destruct (proj2 add_keeps_supplied_fields _ _ _ _ _ _ H) as (_ & Ha & _ & Hd & _).
    split; [exact Ha|exact Hd].
Defined.

(** ** Sorting *)

Section SortFacts.
Context {A : Type}.
Variable compareFn : A -> A -> Z.
Hypothesis compareFn_trans :
  forall a b c, (compareFn a b <= 0)%Z -> (compareFn b c <= 0)%Z ->
                (compareFn a c <= 0)%Z.
Hypothesis compareFn_flip :
  forall a b, (0 < compareFn a b)%Z -> (compareFn b a < 0)%Z.

Lemma sort_insert_perm (x : A) (l : list A) :
  Permutation (sort_insert compareFn x l) (x :: l).
Proof.
  induction l as [|y l IH]; simpl; [reflexivity|].
  destruct (compareFn x y <=? 0)%Z; [reflexivity|].
  rewrite IH. apply perm_swap.
Qed.

Lemma sort_perm (l : list A) : Permutation (sort compareFn l) l.
Proof.
  induction l as [|x l IH]; simpl; [reflexivity|].
  rewrite sort_insert_perm. apply perm_skip, IH.
Qed.

Lemma sort_length (l : list A) : length (sort compareFn l) = length l.
Proof. apply Permutation_length, sort_perm. Qed.

Lemma sort_insert_sorted (x : A) (l : list A) :
  StronglySorted (fun a b => (compareFn a b <= 0)%Z) l -> StronglySorted (fun a b => (compareFn a b <= 0)%Z) (sort_insert compareFn x l).
Proof.
  induction 1 as [|y l Hs IH Hy]; simpl.
  - repeat constructor.
  - destruct (compareFn x y <=? 0)%Z eqn:Hc.
    + apply Z.leb_le in Hc. constructor.
      * constructor; assumption.
      * constructor; [exact Hc|].
        eapply List.Forall_impl; [|exact Hy]. intros z Hz.
        eapply compareFn_trans; eassumption.
    + apply Z.leb_gt in Hc. constructor; [exact IH|].
      rewrite List.Forall_forall. intros z Hz.
      apply (Permutation_in _ (sort_insert_perm x l)) in Hz as [<-|Hz].
      * apply Z.lt_le_incl, compareFn_flip, Hc.
      * rewrite List.Forall_forall in Hy. apply Hy, Hz.
Qed.

Lemma sort_sorted (l : list A) : StronglySorted (fun a b => (compareFn a b <= 0)%Z) (sort compareFn l).
Proof.
  induction l as [|x l IH]; simpl; [constructor|].
  apply sort_insert_sorted, IH.
Qed.

(** The head of the sorted array is the first element of the input
    that no other element precedes. *)
Lemma sort_head (l : list A) (b : A) (rest : list A) :
  sort compareFn l = b :: rest ->
  exists l1 l2, l = (l1 ++ b :: l2)%list /\
    Forall (fun x => (compareFn b x < 0)%Z) l1 /\
    Forall (fun x => (compareFn b x <= 0)%Z) l2.
Proof.
  revert b rest. induction l as [|x l IH]; intros b rest H; simpl in H.
  - discriminate.
  - destruct (sort compareFn l) as [|y s] eqn:Hs.
    + assert (l = []) as ->.
      { apply Permutation_nil. rewrite <- Hs. apply sort_perm. }
      simpl in H. injection H as <- <-.
      exists [], []. repeat constructor.
    + destruct (IH y s eq_refl) as (l1 & l2 & -> & H1 & H2).
      simpl in H. destruct (compareFn x y <=? 0)%Z eqn:Hc.
      * apply Z.leb_le in Hc. injection H as <- <-.
        exists [], (l1 ++ y :: l2)%list. split; [reflexivity|].
        split; [constructor|].
        apply List.Forall_app. split; [|constructor].
        -- eapply List.Forall_impl; [|exact H1]. intros z Hz.
           eapply compareFn_trans; [exact Hc|]. apply Z.lt_le_incl, Hz.
        -- exact Hc.
        -- eapply List.Forall_impl; [|exact H2]. intros z Hz.
           eapply compareFn_trans; eassumption.
      * apply Z.leb_gt in Hc. injection H as <- <-.
        exists (x :: l1), l2. split; [reflexivity|].
        split; [|exact H2]. constructor; [|exact H1].
        apply compareFn_flip, Hc.
Qed.

Lemma sort_nil_inv (l : list A) : sort compareFn l = [] -> l = [].
Proof.
  intros H. apply Permutation_nil. rewrite <- H. apply sort_perm.
Qed.
End SortFacts.

Lemma in_firstn {A : Type} (x : A) (n : nat) (l : list A) :
  In x (firstn n l) -> In x l.
Proof.
  intros H. rewrite <- (firstn_skipn n l). apply in_or_app. left. exact H.
Qed.

Lemma in_skipn {A : Type} (x : A) (n : nat) (l : list A) :
  In x (skipn n l) -> In x l.
Proof.
  intros H. rewrite <- (firstn_skipn n l). apply in_or_app. right. exact H.
Qed.

Lemma sorted_firstn_skipn {A : Type} (R : A -> A -> Prop) (n : nat) (l : list A) :
  StronglySorted R l ->
  forall a b, In a (firstn n l) -> In b (skipn n l) -> R a b.
Proof.
  intros Hs. revert n. induction Hs as [|x l Hs IH Hx]; intros n a b Ha Hb.
  - destruct n; simpl in Ha; contradiction.
  - destruct n as [|n]; simpl in Ha, Hb; [contradiction|].
    destruct Ha as [<-|Ha].
    + rewrite (List.Forall_forall (R x)) in Hx. apply Hx.
      eapply in_skipn. exact Hb.
    + eapply IH; eassumption.
Qed.

Lemma sorted_firstn {A : Type} (R : A -> A -> Prop) (n : nat) (l : list A) :
  StronglySorted R l -> StronglySorted R (firstn n l).
Proof.
  intros Hs. revert n. induction Hs as [|x l Hs IH Hx]; intros [|n]; simpl;
    try constructor.
  - apply IH.
  - rewrite (List.Forall_forall (R x)) in *. intros y Hy. apply Hx.
    eapply in_firstn. exact Hy.
Qed.

Lemma byCreatedAtDesc_trans (a b c : Balance.t) :
  (byCreatedAtDesc a b <= 0)%Z -> (byCreatedAtDesc b c <= 0)%Z ->
  (byCreatedAtDesc a c <= 0)%Z.
Proof. unfold byCreatedAtDesc. lia. Qed.

Lemma byCreatedAtDesc_flip (a b : Balance.t) :
  (0 < byCreatedAtDesc a b)%Z -> (byCreatedAtDesc b a < 0)%Z.
Proof. unfold byCreatedAtDesc. lia. Qed.

Lemma filter_split {A : Type} (p : A -> bool) (l l1 l2 : list A) (b : A) :
  List.filter p l = (l1 ++ b :: l2)%list ->
  exists L1 L2, l = (L1 ++ b :: L2)%list /\
                List.filter p L1 = l1 /\ List.filter p L2 = l2 /\ p b = true.
Proof.
  revert l1. induction l as [|x l IH]; intros l1 H; simpl in H.
  - destruct l1; discriminate.
  - destruct (p x) eqn:Hp.
    + destruct l1 as [|y l1]; simpl in H.
      * injection H as -> <-. exists [], l. simpl. auto.
      * injection H as -> H. destruct (IH _ H) as (L1 & L2 & -> & <- & <- & Hb).
        exists (y :: L1), L2. simpl. rewrite Hp. auto.
    + destruct (IH _ H) as (L1 & L2 & -> & <- & <- & Hb).
      exists (x :: L1), L2. simpl. rewrite Hp. auto.
Qed.

(** ** Aggregation *)

Lemma filter_userId (u : User.t) (bs : list Balance.t) :
  List.filter (fun b => String.eqb (Balance.userId b) (User.id u)) bs = balances_of u bs.
Proof.
  unfold balances_of. apply List.filter_ext. intros b.
  destruct (String.eqb_spec (Balance.userId b) (User.id u)) as [E|E].
  - symmetry. apply bool_decide_eq_true. exact E.
  - symmetry. apply bool_decide_eq_false. exact E.
Qed.

Lemma In_balances_of (u : User.t) (b : Balance.t) (bs : list Balance.t) :
  In b (balances_of u bs) <-> In b bs /\ Balance.userId b = User.id u.
Proof.
  unfold balances_of. rewrite filter_In, bool_decide_eq_true. reflexivity.
Qed.

Lemma fold_left_amounts (bs : list Balance.t) (acc : number) :
  fold_left (fun sum b => num_add sum (Balance.amount b)) bs acc
  = fold_left num_add (map Balance.amount bs) acc.
Proof.
  revert acc. induction bs as [|b bs IH]; intros acc; simpl; [reflexivity|apply IH].
Qed.

Lemma filter_length_perm {A : Type} (p : A -> bool) (l l' : list A) :
  Permutation l l' -> length (List.filter p l) = length (List.filter p l').
Proof.
  induction 1 as [|x l l' _ IH|x y l|l l' l'' _ IH1 _ IH2]; simpl.
  - reflexivity.
  - destruct (p x); simpl; congruence.
  - destruct (p x), (p y); reflexivity.
  - congruence.
Qed.

(** C5, as stated, fails: amounts are doubles, and adding 0.1, 0.2 and 0.3
    from left to right gives 0.6000000000000001 while adding them in the
    opposite order gives 0.6.  The three balances share their timestamp,
    so the sort done while rendering leaves both orders as they are. *)
Lemma total_depends_on_order :
  Permutation [tenth; fifth; three_tenths] [three_tenths; fifth; tenth] /\
  num_eqb (totalBalance (summarize [tenth; fifth; three_tenths] alice_user))
          (totalBalance (summarize [three_tenths; fifth; tenth] alice_user)) = false /\
  map totalBalance (snd (fst (Reports [alice_user] [tenth; fifth; three_tenths])))
    = [S754_finite false 5404319552844596 (-53)] /\
  map totalBalance (snd (fst (Reports [alice_user] [three_tenths; fifth; tenth])))
    = [S754_finite false 5404319552844595 (-53)].
Proof.
  split.
  - change [three_tenths; fifth; tenth] with (rev [tenth; fifth; three_tenths]).
    apply Permutation_rev.
  - repeat split; vm_compute; reflexivity.
Qed.

(** C8.  For each User of the aggregation, the last entry is "none"
    exactly when the user has no Balance; otherwise it is a Balance of
    that user whose timestamp is the latest among the user's Balances,
    and among several with that timestamp the one that comes first in the
    snapshot. *)
Theorem lastBalance_latest (users : list User.t) (balances : list Balance.t) :
  map user (summaries users balances) = users /\
  Forall (fun s =>
    match lastBalance s with
    | None => balances_of (user s) balances = []
    | Some b =>
        Balance.userId b = User.id (user s) /\
        exists earlier later,
          balances = (earlier ++ b :: later)%list /\
          (forall b', In b' earlier -> Balance.userId b' = User.id (user s) ->
                      (Balance.createdAt b' < Balance.createdAt b)%Z) /\
          (forall b', In b' later -> Balance.userId b' = User.id (user s) ->
                      (Balance.createdAt b' <= Balance.createdAt b)%Z)
    end) (summaries users balances).
Proof.
  split.
  - unfold summaries. rewrite map_map. simpl. apply map_id.
  - apply List.Forall_forall. intros s Hs. unfold summaries in Hs.
    apply in_map_iff in Hs as (u & <- & _).
    unfold summarize. cbn [lastBalance user]. rewrite filter_userId.
    destruct (sort byCreatedAtDesc (balances_of u balances)) as [|b rest] eqn:Hsort;
      simpl.
    + eapply sort_nil_inv, Hsort.
    + apply (sort_head byCreatedAtDesc byCreatedAtDesc_trans byCreatedAtDesc_flip)
        in Hsort as (l1 & l2 & Hf & H1 & H2).
      apply filter_split in Hf as (L1 & L2 & -> & <- & <- & Hb).
      apply bool_decide_eq_true in Hb. split; [exact Hb|].
      exists L1, L2. split; [reflexivity|]. split.
      * intros b' Hin Hu. rewrite List.Forall_forall in H1.
        specialize (H1 b'). unfold byCreatedAtDesc in H1.
        assert (Balance.createdAt b' - Balance.createdAt b < 0)%Z; [|lia].
        apply H1. apply filter_In. split; [exact Hin|].
        apply bool_decide_eq_true, Hu.
      * intros b' Hin Hu. rewrite List.Forall_forall in H2.
        specialize (H2 b'). unfold byCreatedAtDesc in H2.
        assert (Balance.createdAt b' - Balance.createdAt b <= 0)%Z; [|lia].
        apply H2. apply filter_In. split; [exact Hin|].
        apply bool_decide_eq_true, Hu.
Qed.

(** The example of the specification: total 150.00 over two balances. *)
Example spec_example_summary :
  let s := summarize [newBalance jan100 "b-1" 2000; newBalance feb50 "b-3" 3500]
                     alice_user in
  totalBalance s = n150 /\ balanceCount s = 2 /\
  lastBalance s = Some (newBalance feb50 "b-3" 3500).
Proof. vm_compute. repeat split. Qed.

(** Ties go to the Balance met first in the snapshot. *)
Example lastBalance_tie :
  lastBalance (summarize [tenth; fifth; three_tenths] alice_user) = Some tenth /\
  lastBalance (summarize [three_tenths; fifth; tenth] alice_user) = Some three_tenths.
Proof. vm_compute. split; reflexivity. Qed.

Lemma sorted_map_row (f : Balance.t -> recentRow) (l : list Balance.t) :
  (forall b, row_balance (f b) = b) ->
  StronglySorted (fun a b => (byCreatedAtDesc a b <= 0)%Z) l ->
  StronglySorted
    (fun r1 r2 => (Balance.createdAt (row_balance r2)
                   <= Balance.createdAt (row_balance r1))%Z)
    (map f l).
Proof.
  intros Hf. induction 1 as [|x l Hs IH Hx]; simpl; constructor.
  - exact IH.
  - apply List.Forall_forall. intros r Hr.
    apply in_map_iff in Hr as (b & <- & Hb).
    rewrite List.Forall_forall in Hx. specialize (Hx b Hb).
    unfold byCreatedAtDesc in Hx. rewrite !Hf. lia.
Qed.

(** C6.  The recent-entries view holds the 10 most recent Balances (all
    of them when there are fewer), most recent first.  Each row carries
    the first User whose id equals the Balance's [userId] and shows that
    user's name; when no User of the snapshot has that id the row carries
    no user and shows the Unknown placeholder. *)
Theorem recentEntries_view (users : list User.t) (balances : list Balance.t) :
  let rows := recentEntries users balances in
  length rows <= 10 /\
  length rows = Nat.min 10 (length balances) /\
  StronglySorted
    (fun r1 r2 => (Balance.createdAt (row_balance r2)
                   <= Balance.createdAt (row_balance r1))%Z) rows /\
  (exists older,
      Permutation (map row_balance rows ++ older) balances /\
      forall r b, In r rows -> In b older ->
                  (Balance.createdAt b <= Balance.createdAt (row_balance r))%Z) /\
  Forall (fun r =>
    match row_user r with
    | Some u =>
        In u users /\ User.id u = Balance.userId (row_balance r) /\
        (User.name u <> "" -> row_userName r = User.name u)
    | None =>
        (forall u, In u users -> User.id u <> Balance.userId (row_balance r)) /\
        row_userName r = UnknownUser
    end) rows.
Proof.
  intros rows.
  pose proof (sort_sorted byCreatedAtDesc byCreatedAtDesc_trans byCreatedAtDesc_flip
                balances) as Hsorted.
  assert (Hlen : length rows = Nat.min 10 (length balances)).
  { unfold rows, recentEntries.
    rewrite length_map, length_firstn, sort_length. reflexivity. }
  assert (Hbal : map row_balance rows = firstn 10 (sort byCreatedAtDesc balances)).
  { unfold rows, recentEntries. rewrite map_map. simpl. apply map_id. }
  split; [lia|]. split; [exact Hlen|]. split; [|split].
  - unfold rows, recentEntries. apply sorted_map_row; [reflexivity|].
    apply sorted_firstn, Hsorted.
  - exists (skipn 10 (sort byCreatedAtDesc balances)). split.
    + rewrite Hbal, firstn_skipn. apply sort_perm.
    + intros r b Hr Hb.
      assert (Hin : In (row_balance r) (firstn 10 (sort byCreatedAtDesc balances))).
      { rewrite <- Hbal. apply in_map, Hr. }
      pose proof (sorted_firstn_skipn _ 10 _ Hsorted _ _ Hin Hb) as H.
      unfold byCreatedAtDesc in H. lia.
  - apply List.Forall_forall. intros r Hr. unfold rows, recentEntries in Hr.
    apply in_map_iff in Hr as (b & <- & _). cbn [row_user row_balance row_userName].
    destruct (find (fun u => String.eqb (User.id u) (Balance.userId b)) users)
      as [u|] eqn:Hfind.
    + apply find_some in Hfind as [Hin He]. apply String.eqb_eq in He.
      split; [exact Hin|]. split; [exact He|].
      intros Hname. unfold displayName.
      destruct (String.eqb_spec (User.name u) ""); [contradiction|reflexivity].
    + split; [|reflexivity]. intros u Hin He.
      apply (find_none _ _ Hfind) in Hin. apply String.eqb_neq in Hin. contradiction.
Qed.

(** ** Import validation *)

Lemma validate_conforming (data : json) :
  validate data =
  match conforming (Some data) with
  | Some arrays => inr arrays
  | None => inl (match data with JNull => TypeError | _ => InvalidFileFormat end)
  end.
Proof.
  destruct data as [|b|n|s|items|members]; try reflexivity.
  unfold validate, conforming, get_prop.
  destruct (member "users" members) as [[|[]|n|s|us|ms]|];
    destruct (member "balances" members) as [[|[]|n'|s'|bs|ms']|];
    simpl; try reflexivity;
    repeat match goal with
           | |- context [if ?c then _ else _] => destruct c
           end; reflexivity.
Qed.

(** C7.  An input that does not parse as an object with both [users] and
    [balances] present as sequences makes the import fail: the [try]
    block throws before [importData] is reached (the invalid-format error
    for every parsed value but [null]), the failure toast is shown and
    the database is left as it was.  An input with both sequences, empty
    or not, passes validation and is handed to [importData], whose
    outcome decides the toast. *)
Theorem handleImport_contract
    (importData_json : list json -> list json -> IDBDatabase -> promise unit * IDBDatabase)
    (parsed : option json) (db : IDBDatabase) :
  match conforming parsed with
  | None =>
      handleImport importData_json (Some parsed) db = (Some ToastError, db) /\
      handleImport_try importData_json parsed db =
        (inl (match parsed with
              | None => SyntaxError
              | Some JNull => TypeError
              | Some _ => InvalidFileFormat
              end), db)
  | Some (us, bs) =>
      handleImport importData_json (Some parsed) db =
        match importData_json us bs db with
        | (Resolved _, db') => (Some (ToastSuccess (length us) (length bs)), db')
        | (Rejected _, db') => (Some ToastError, db')
        end
  end.
Proof.
  destruct parsed as [data|]; [|split; reflexivity].
  unfold handleImport, handleImport_try. rewrite validate_conforming.
  destruct (conforming (Some data)) as [[us bs]|].
  - destruct (importData_json us bs db) as [[[]|e] db']; reflexivity.
  - split; [reflexivity|]. destruct data; reflexivity.
Qed.

(** Empty sequences are accepted; a missing member, a member that is not
    a sequence, and a text that does not parse are refused. *)
Example handleImport_samples :
  let import := fun (_ _ : list json) (db : IDBDatabase) => (Resolved tt, empty_db) in
  handleImport import
    (Some (Some (JObject [("users", JArray []); ("balances", JArray [])]))) db_jan
    = (Some (ToastSuccess 0 0), empty_db) /\
  handleImport import (Some (Some (JObject [("users", JArray [])]))) db_jan
    = (Some ToastError, db_jan) /\
  handleImport import
    (Some (Some (JObject [("users", JArray []); ("balances", JString "none")]))) db_jan
    = (Some ToastError, db_jan) /\
  handleImport import (Some (Some JNull)) db_jan = (Some ToastError, db_jan) /\
  handleImport import (Some None) db_jan = (Some ToastError, db_jan) /\
  handleImport import None db_jan = (None, db_jan).
Proof. repeat split. Qed.

(** * Further properties of the service *)

Lemma NoDup_map_inj_in {A B : Type} (f : A -> B) (l : list A) :
  (forall x y, In x l -> In y l -> f x = f y -> x = y) ->
  NoDup l -> NoDup (map f l).
Proof.
  intros Hinj Hnd. induction Hnd as [|x l Hx Hnd IH]; simpl; constructor.
  - intros Hin. apply list_elem_of_In, in_map_iff in Hin as (y & Hy & Hin).
    apply Hx. apply list_elem_of_In.
    rewrite <- (Hinj y x); [exact Hin|right; exact Hin|left; reflexivity|exact Hy].
  - apply IH. intros a b Ha Hb. apply Hinj; right; assumption.
Qed.

Section ObjectStoreInvariants.
Context {V : Type}.
Variable key : V -> string.
Variable indexes : list (index V).

Lemma store_getAll_keys (m : gmap string V) :
  store_ok key indexes m ->
  map key (store_getAll m) = map fst (map_to_list m).
Proof.
  intros [Hk _]. unfold store_getAll. rewrite map_map.
  apply map_ext_in. intros [k v] Hin. simpl. apply Hk.
  apply elem_of_map_to_list, list_elem_of_In, Hin.
Qed.

Lemma store_getAll_NoDup_key (m : gmap string V) :
  store_ok key indexes m -> NoDup (map key (store_getAll m)).
Proof.
  intros Hok. rewrite (store_getAll_keys m Hok). apply NoDup_fst_map_to_list.
Qed.

Lemma store_getAll_NoDup_index (ix : index V) (m : gmap string V) :
  store_ok key indexes m -> In ix indexes -> index_unique ix = true ->
  NoDup (map (index_keyPath ix) (store_getAll m)).
Proof.
  intros Hok Hix Hu.
  pose proof (store_getAll_NoDup_key m Hok) as Hnd.
  apply NoDup_map_inj_in; [|eapply NoDup_fmap_1; exact Hnd].
  intros v1 v2 H1 H2 He.
  apply In_store_getAll in H1 as [k1 H1]. apply In_store_getAll in H2 as [k2 H2].
  destruct Hok as [Hk Hi].
  assert (k1 = k2) by (eapply (Hi ix Hix Hu); eassumption). subst k2.
  congruence.
Qed.

(** When a run of [add] requests against one store goes through. *)
Lemma add_all_inr_iff (vs : list V) (acc : gmap string V) :
  (exists m', add_all key indexes vs acc = inr m') <->
  NoDup (map key vs) /\
  (forall v, In v vs -> acc !! key v = None) /\
  (forall ix, In ix indexes -> index_unique ix = true ->
     NoDup (map (index_keyPath ix) vs) /\
     forall v, In v vs -> forall k w, acc !! k = Some w ->
       index_keyPath ix w <> index_keyPath ix v).
Proof.
  revert acc. induction vs as [|v vs IH]; intros acc; simpl.
  - split.
    + intros _. split; [constructor|]. split; [intros v []|].
      intros ix _ _. split; [constructor|intros v []].
    + intros _. eexists. reflexivity.
  - split.
    + intros [m' H].
      destruct (store_add key indexes v acc) as [e|m1] eqn:Ha; [discriminate|].
      apply store_add_inr in Ha as (Hn & Hc & ->).
      rewrite any_conflict_false in Hc.
      destruct (proj1 (IH _) (ex_intro _ m' H)) as (Hnd & Hfresh & Hidx).
      assert (Hne : forall v', In v' vs -> key v' <> key v).
      { intros v' Hv' He. specialize (Hfresh v' Hv').
        rewrite He, lookup_insert_eq in Hfresh. discriminate. }
      split; [|split].
      * constructor; [|exact Hnd]. intros Hin.
        apply list_elem_of_In, in_map_iff in Hin as (v' & He & Hv').
        exact (Hne v' Hv' He).
      * intros v' [<-|Hv']; [exact Hn|].
        specialize (Hfresh v' Hv'). rewrite lookup_insert_ne in Hfresh; [exact Hfresh|].
        intros He. exact (Hne v' Hv' (eq_sym He)).
      * intros ix Hix Hu. destruct (Hidx ix Hix Hu) as [Hndi Hacc]. split.
        -- constructor; [|exact Hndi]. intros Hin.
           apply list_elem_of_In, in_map_iff in Hin as (v' & He & Hv').
           apply (Hacc v' Hv' (key v) v); [apply lookup_insert_eq|]. congruence.
        -- intros v' [<-|Hv'] k w Hl.
           ++ apply (Hc ix Hix Hu k w Hl). intros ->. congruence.
           ++ apply (Hacc v' Hv' k w). rewrite lookup_insert_ne; [exact Hl|].
              intros <-. congruence.
    + intros (Hnd & Hfresh & Hidx).
      apply NoDup_cons in Hnd as [Hnotin Hnd].
      unfold store_add. rewrite (Hfresh v (or_introl eq_refl)).
      assert (Hc : any_conflict key indexes v acc = false).
      { apply any_conflict_false. intros ix Hix Hu k w Hl _.
        destruct (Hidx ix Hix Hu) as [_ Hacc].
        apply (Hacc v (or_introl eq_refl) k w Hl). }
      rewrite Hc. apply IH. split; [exact Hnd|]. split.
      * intros v' Hv'. rewrite lookup_insert_ne; [apply Hfresh; right; exact Hv'|].
        intros He. apply Hnotin, list_elem_of_In. rewrite He. apply in_map, Hv'.
      * intros ix Hix Hu. destruct (Hidx ix Hix Hu) as [Hndi Hacc].
        apply NoDup_cons in Hndi as [Hnotini Hndi]. split; [exact Hndi|].
        intros v' Hv' k w Hl.
        apply lookup_insert_Some in Hl as [[<- <-]|[_ Hl]].
        -- intros He. apply Hnotini, list_elem_of_In. rewrite He. apply in_map, Hv'.
        -- apply (Hacc v' (or_intror Hv') k w Hl).
Qed.
End ObjectStoreInvariants.

Lemma run_calls_ok (cs : list call) (db : IDBDatabase) :
  db_ok db -> db_ok (run_calls cs db).
Proof.
  unfold run_calls. revert db. induction cs as [|c cs IH]; intros db Hok; simpl.
  - exact Hok.
  - apply IH. destruct c; simpl.
    + apply addUser_ok, Hok.
    + apply addBalance_ok, Hok.
    + apply updateBalance_ok, Hok.
    + apply importData_ok, Hok.
Qed.

Lemma NoDup_singletons {A : Type} (f : A -> string) (l : list A) :
  NoDup (map (fun x => [f x]) l) <-> NoDup (map f l).
Proof.
  split; intros H.
  - replace (map (fun x => [f x]) l) with (map (fun s => [s]) (map f l)) in H
      by (rewrite map_map; reflexivity).
    eapply NoDup_fmap_1. exact H.
  - replace (map (fun x => [f x]) l) with (map (fun s => [s]) (map f l))
      by (rewrite map_map; reflexivity).
    apply NoDup_map_inj_in; [|exact H]. intros x y _ _ E. congruence.
Qed.

Lemma NoDup_pairs {A : Type} (f g : A -> string) (l : list A) :
  NoDup (map (fun x => [f x; g x]) l) <-> NoDup (map (fun x => (f x, g x)) l).
Proof.
  split; intros H.
  - replace (map (fun x => [f x; g x]) l)
      with (map (fun p : string * string => [fst p; snd p])
                (map (fun x => (f x, g x)) l)) in H
      by (rewrite map_map; reflexivity).
    eapply NoDup_fmap_1. exact H.
  - replace (map (fun x => [f x; g x]) l)
      with (map (fun p : string * string => [fst p; snd p])
                (map (fun x => (f x, g x)) l))
      by (rewrite map_map; reflexivity).
    apply NoDup_map_inj_in; [|exact H].
    intros [a b] [c d] _ _ E. simpl in E. congruence.
Qed.

(** X1.  In a well-formed database [getUserById] finds exactly the stored
    User that carries the given id, and answers "not found" exactly when
    no stored User carries it. *)
Theorem getUserById_finds_by_id (k : string) (db : IDBDatabase) :
  db_ok db ->
  (forall u, getUserById k db = Some u <-> In u (getAllUsers db) /\ User.id u = k) /\
  (getUserById k db = None <-> forall u, In u (getAllUsers db) -> User.id u <> k).
Proof.
  intros [[Hk _] _].
  assert (H1 : forall u, getUserById k db = Some u <->
                         In u (getAllUsers db) /\ User.id u = k).
  { intros u. unfold getUserById, store_get. split.
    - intros Hl. split; [apply In_getAllUsers; eauto|]. eapply Hk, Hl.
    - intros [Hin <-]. apply In_getAllUsers in Hin as [k' Hl].
      rewrite (Hk k' u Hl). exact Hl. }
  split; [exact H1|]. split.
  - intros Hn u Hin He. rewrite (proj2 (H1 u) (conj Hin He)) in Hn. discriminate.
  - intros Hall. destruct (getUserById k db) as [u|] eqn:Hg; [|reflexivity].
    destruct (proj1 (H1 u) eq_refl) as [Hin He]. exfalso. exact (Hall u Hin He).
Qed.

Lemma getUserById_finds_by_id_witness :
  getUserById "u-1" db_alice = Some alice_user /\ getUserById "u-2" db_alice = None.
Proof.
  destruct (getUserById_finds_by_id "u-1" db_alice db_alice_ok) as [H1 _].
  destruct (getUserById_finds_by_id "u-2" db_alice db_alice_ok) as [_ H2].
  split.
  - apply H1. rewrite getAllUsers_db_alice. split; [left; reflexivity|reflexivity].
  - apply H2. rewrite getAllUsers_db_alice. intros u [<-|[]]. discriminate.
Defined.

(** X2.  Whatever calls were made on a database that started empty, no
    two stored Users share an id or an [idNumber], and no two stored
    Balances share an id or a ([userId], [month]) pair. *)
Theorem stored_records_are_unique (cs : list call) :
  let db := run_calls cs empty_db in
  NoDup (map User.id (getAllUsers db)) /\
  NoDup (map User.idNumber (getAllUsers db)) /\
  NoDup (map Balance.id (getAllBalances db)) /\
  NoDup (map (fun b => (Balance.userId b, Balance.month b)) (getAllBalances db)).
Proof.
  intros db. destruct (run_calls_ok cs empty_db db_ok_empty) as [Hu Hb].
  fold db in Hu, Hb. unfold getAllUsers, getAllBalances.
  split; [|split; [|split]].
  - eapply store_getAll_NoDup_key, Hu.
  - apply NoDup_singletons.
    apply (store_getAll_NoDup_index User.id users_indexes _ _ Hu idNumber_index eq_refl).
  - eapply store_getAll_NoDup_key, Hb.
  - apply NoDup_pairs.
    apply (store_getAll_NoDup_index Balance.id balances_indexes _ _ Hb
             userMonth_index eq_refl).
Qed.

Lemma userId_filter_eqb (uid : string) (b : Balance.t) :
  keys_eqb [Balance.userId b] [uid] = String.eqb (Balance.userId b) uid.
Proof.
  unfold keys_eqb. destruct (String.eqb_spec (Balance.userId b) uid) as [E|E].
  - apply bool_decide_eq_true. congruence.
  - apply bool_decide_eq_false. congruence.
Qed.

Lemma NoDup_months_of_user (uid : string) (l : list Balance.t) :
  NoDup (map (fun b => (Balance.userId b, Balance.month b)) l) ->
  NoDup (map Balance.month
             (List.filter (fun b => keys_eqb [Balance.userId b] [uid]) l)).
Proof.
  induction l as [|x l IH]; simpl; intros Hnd; [constructor|].
  apply NoDup_cons in Hnd as [Hx Hnd].
  destruct (keys_eqb [Balance.userId x] [uid]) eqn:Ex; [|apply IH, Hnd].
  simpl. constructor; [|apply IH, Hnd].
  intros Hin. apply list_elem_of_In, in_map_iff in Hin as (y & Hm & Hy).
  apply filter_In in Hy as [Hy Ey].
  rewrite userId_filter_eqb in Ex, Ey.
  apply String.eqb_eq in Ex, Ey.
  apply Hx, list_elem_of_In, in_map_iff. exists y. split; [|exact Hy].
  congruence.
Qed.

(** X3.  In a well-formed database [getBalancesByUserId] returns exactly
    the stored Balances of that user, at most one per month, and as many
    as the report counts for a User with that id. *)
Theorem getBalancesByUserId_of_user (uid : string) (db : IDBDatabase) :
  db_ok db ->
  (forall b, In b (getBalancesByUserId uid db) <->
             In b (getAllBalances db) /\ Balance.userId b = uid) /\
  NoDup (map Balance.month (getBalancesByUserId uid db)) /\
  (forall u, User.id u = uid ->
     balanceCount (summarize (getAllBalances db) u)
       = length (getBalancesByUserId uid db)).
Proof.
  intros [_ Hb]. unfold getBalancesByUserId, index_getAll, getAllBalances.
  cbn [index_keyPath]. split; [|split].
  - intros b. rewrite filter_In, userId_filter_eqb, String.eqb_eq. reflexivity.
  - apply NoDup_months_of_user. apply NoDup_pairs.
    apply (store_getAll_NoDup_index Balance.id balances_indexes _ _ Hb
             userMonth_index eq_refl).
  - intros u <-. unfold summarize. cbn [balanceCount]. rewrite sort_length.
    f_equal. apply List.filter_ext. intros b. symmetry. apply userId_filter_eqb.
Qed.

Lemma getBalancesByUserId_of_user_witness :
  (forall b, In b (getBalancesByUserId "u-1" db_jan) <->
             In b (getAllBalances db_jan) /\ Balance.userId b = "u-1") /\
  NoDup (map Balance.month (getBalancesByUserId "u-1" db_jan)).
Proof.
  destruct (getBalancesByUserId_of_user "u-1" db_jan db_jan_ok) as (H1 & H2 & _).
  split; assumption.
Defined.

Lemma users_add_all_iff (us : list User.t) :
  (exists m, add_all User.id users_indexes us ∅ = inr m) <->
  NoDup (map User.id us) /\ NoDup (map User.idNumber us).
Proof.
  rewrite add_all_inr_iff. split.
  - intros (Hid & _ & Hix). split; [exact Hid|].
    apply NoDup_singletons. apply (Hix _ idNumber_index eq_refl).
  - intros [Hid Hn]. split; [exact Hid|]. split; [intros; apply lookup_empty|].
    intros ix [<-|[<-|[]]] Hu; simpl in Hu; [discriminate|]. split.
    + apply NoDup_singletons in Hn. exact Hn.
    + intros v _ k w Hl. rewrite lookup_empty in Hl. discriminate.
Qed.

Lemma balances_add_all_iff (bs : list Balance.t) :
  (exists m, add_all Balance.id balances_indexes bs ∅ = inr m) <->
  NoDup (map Balance.id bs) /\
  NoDup (map (fun b => (Balance.userId b, Balance.month b)) bs).
Proof.
  rewrite add_all_inr_iff. split.
  - intros (Hid & _ & Hix). split; [exact Hid|].
    apply NoDup_pairs. apply (Hix _ userMonth_index eq_refl).
  - intros [Hid Hn]. split; [exact Hid|]. split; [intros; apply lookup_empty|].
    intros ix [<-|[<-|[<-|[]]]] Hu; simpl in Hu; try discriminate. split.
    + apply NoDup_pairs in Hn. exact Hn.
    + intros v _ k w Hl. rewrite lookup_empty in Hl. discriminate.
Qed.

(** X4.  [importData] resolves exactly when the snapshot itself is free
    of clashes: no two of its users share an id or an [idNumber] and no
    two of its balances share an id or a ([userId], [month]) pair.  What
    the database held before plays no part. *)
Theorem importData_resolves_iff (data : ExportData) (db : IDBDatabase) :
  fst (importData data db) = Resolved tt <->
  NoDup (map User.id (users data)) /\
  NoDup (map User.idNumber (users data)) /\
  NoDup (map Balance.id (balances data)) /\
  NoDup (map (fun b => (Balance.userId b, Balance.month b)) (balances data)).
Proof.
  rewrite importData_unfold.
  pose proof (users_add_all_iff (users data)) as Hu.
  pose proof (balances_add_all_iff (balances data)) as Hb.
  destruct (add_all User.id users_indexes (users data) ∅) as [e|mu].
  - split; [discriminate|]. intros (H1 & H2 & _).
    destruct (proj2 Hu (conj H1 H2)) as [m Hm]. discriminate.
  - destruct (add_all Balance.id balances_indexes (balances data) ∅) as [e|mb].
    + split; [discriminate|]. intros (_ & _ & H3 & H4).
      destruct (proj2 Hb (conj H3 H4)) as [m Hm]. discriminate.
    + split; [|reflexivity]. intros _.
      destruct (proj1 Hu (ex_intro _ mu eq_refl)) as [H1 H2].
      destruct (proj1 Hb (ex_intro _ mb eq_refl)) as [H3 H4].
      auto.
Qed.

Lemma clash_free_iff (data : ExportData) :
  clash_free data <->
  (exists mu, add_all User.id users_indexes (users data) ∅ = inr mu) /\
  (exists mb, add_all Balance.id balances_indexes (balances data) ∅ = inr mb).
Proof.
  unfold clash_free. rewrite users_add_all_iff, balances_add_all_iff. tauto.
Qed.

(** X5.  For a snapshot of well-typed records, [importData] settles the
    same way on any two prior databases.  When the snapshot is free of
    clashes both calls resolve and leave one and the same database, which
    holds exactly the records of the snapshot: nothing of either prior
    state survives.  When it is not, both calls reject and each database
    is left exactly as it was. *)
Theorem importData_forgets_prior_state (data : ExportData) (db1 db2 : IDBDatabase) :
  (clash_free data /\
   exists db', importData data db1 = (Resolved tt, db') /\
               importData data db2 = (Resolved tt, db') /\
               Permutation (getAllUsers db') (users data) /\
               Permutation (getAllBalances db') (balances data))
  \/
  (~ clash_free data /\
   importData data db1 = (Rejected None, db1) /\
   importData data db2 = (Rejected None, db2)).
Proof.
  rewrite !importData_unfold, clash_free_iff.
  destruct (add_all User.id users_indexes (users data) ∅) as [e|mu] eqn:Hu.
  { right. split; [|split; reflexivity]. intros [[m Hm] _]. discriminate. }
  destruct (add_all Balance.id balances_indexes (balances data) ∅) as [e|mb] eqn:Hb.
  { right. split; [|split; reflexivity]. intros [_ [m Hm]]. discriminate. }
  left. split; [split; eauto|].
  exists (mkDB mu mb). split; [reflexivity|]. split; [reflexivity|].
  apply add_all_getAll in Hu, Hb.
  rewrite store_getAll_empty, app_nil_r in Hu.
  rewrite store_getAll_empty, app_nil_r in Hb.
  split; assumption.
Qed.

(** X6.  Writing a stored Balance back unchanged is accepted and changes
    nothing: in a well-formed database [updateBalance] of a record read
    from the store resolves and leaves the database as it was. *)
Theorem updateBalance_stored_record (b : Balance.t) (db : IDBDatabase) :
  db_ok db -> In b (getAllBalances db) ->
  updateBalance b db = (Resolved b, db).
Proof.
  intros [_ [Hk Hu]] Hin. apply In_getAllBalances in Hin as [kb Hl].
  assert (kb = Balance.id b) as -> by (symmetry; eapply Hk, Hl).
  unfold updateBalance, transaction. cbn [run_requests exec]. unfold store_put.
  assert (Hc : any_conflict Balance.id balances_indexes b (db_balances db) = false).
  { apply balances_conflict_false. intros k w Hw Hne [E1 E2]. apply Hne.
    eapply (Hu _ userMonth_index eq_refl); [exact Hw|exact Hl|].
    simpl. congruence. }
  rewrite Hc, (insert_id _ _ _ Hl). destruct db; reflexivity.
Qed.

Lemma updateBalance_stored_record_witness :
  updateBalance (newBalance jan100 "b-1" 2000) db_jan
  = (Resolved (newBalance jan100 "b-1" 2000), db_jan).
Proof.
  apply (updateBalance_stored_record _ db_jan db_jan_ok).
  rewrite getAllBalances_db_jan. left. reflexivity.
Defined.

(** * Further properties of the reports *)

Section SortMore.
Context {A : Type}.
Variable compareFn : A -> A -> Z.
Hypothesis compareFn_trans :
  forall a b c, (compareFn a b <= 0)%Z -> (compareFn b c <= 0)%Z ->
                (compareFn a c <= 0)%Z.
Hypothesis compareFn_flip :
  forall a b, (0 < compareFn a b)%Z -> (compareFn b a < 0)%Z.

Lemma sort_insert_first (x : A) (l : list A) :
  Forall (fun z => (compareFn x z <= 0)%Z) l ->
  sort_insert compareFn x l = x :: l.
Proof.
  intros H. destruct H as [|y l Hy _]; simpl; [reflexivity|].
  apply Z.leb_le in Hy. rewrite Hy. reflexivity.
Qed.

(** A sorted array is left as it is. *)
Lemma sort_sorted_id (l : list A) :
  StronglySorted (fun a b => (compareFn a b <= 0)%Z) l -> sort compareFn l = l.
Proof.
  induction 1 as [|x l Hs IH Hx]; simpl; [reflexivity|].
  rewrite IH. apply sort_insert_first, Hx.
Qed.

Lemma sort_idempotent (l : list A) :
  sort compareFn (sort compareFn l) = sort compareFn l.
Proof. apply sort_sorted_id, sort_sorted; assumption. Qed.

Lemma filter_sort_insert (p : A -> bool) (x : A) (l : list A) :
  StronglySorted (fun a b => (compareFn a b <= 0)%Z) l ->
  List.filter p (sort_insert compareFn x l)
  = if p x then sort_insert compareFn x (List.filter p l) else List.filter p l.
Proof.
  induction 1 as [|y l Hs IH Hy].
  - simpl. destruct (p x); reflexivity.
  - cbn [sort_insert]. destruct (compareFn x y <=? 0)%Z eqn:Hc.
    + change (List.filter p (x :: y :: l))
        with (if p x then x :: List.filter p (y :: l) else List.filter p (y :: l)).
      destruct (p x); [|reflexivity].
      symmetry. apply sort_insert_first.
      apply Z.leb_le in Hc.
      assert (Hall : Forall (fun z => (compareFn x z <= 0)%Z) (y :: l)).
      { constructor; [exact Hc|].
        eapply List.Forall_impl; [|exact Hy]. intros z Hz.
        eapply compareFn_trans; eassumption. }
      rewrite List.Forall_forall in Hall. apply List.Forall_forall.
      intros z Hz. apply Hall. apply filter_In in Hz as [Hz _]. exact Hz.
    + cbn [List.filter]. rewrite IH.
      destruct (p x), (p y); cbn [sort_insert]; try rewrite Hc; reflexivity.
Qed.

(** Filtering commutes with sorting, because the sort is stable. *)
Lemma filter_sort (p : A -> bool) (l : list A) :
  List.filter p (sort compareFn l) = sort compareFn (List.filter p l).
Proof.
  induction l as [|x l IH]; simpl; [reflexivity|].
  rewrite filter_sort_insert by (apply sort_sorted; assumption).
  rewrite IH. destruct (p x); reflexivity.
Qed.
End SortMore.

Lemma sorted_perm_unique {A : Type} (R : A -> A -> Prop) (l1 l2 : list A) :
  (forall a b, In a l1 -> In b l1 -> R a b -> R b a -> a = b) ->
  StronglySorted R l1 -> StronglySorted R l2 -> Permutation l1 l2 -> l1 = l2.
Proof.
  revert l2. induction l1 as [|x l1 IH]; intros l2 Hanti H1 H2 Hp.
  - apply Permutation_nil in Hp. congruence.
  - destruct l2 as [|y l2].
    { symmetry in Hp. apply Permutation_nil in Hp. discriminate. }
    apply StronglySorted_inv in H1 as [H1 Hx].
    apply StronglySorted_inv in H2 as [H2 Hy].
    rewrite List.Forall_forall in Hx, Hy.
    assert (x = y).
    { assert (Hxin : In x (y :: l2)) by (apply (Permutation_in _ Hp); left; reflexivity).
      assert (Hyin : In y (x :: l1))
        by (apply (Permutation_in _ (Permutation_sym Hp)); left; reflexivity).
      destruct Hxin as [->|Hxin]; [reflexivity|].
      destruct Hyin as [->|Hyin]; [reflexivity|].
      apply Hanti; [left; reflexivity|right; exact Hyin|apply Hx, Hyin|apply Hy, Hxin]. }
    subst y. f_equal. apply IH; try assumption.
    + intros a b Ha Hb. apply Hanti; right; assumption.
    + eapply Permutation_cons_inv, Hp.
Qed.

Lemma sort_byCreatedAtDesc_idempotent (l : list Balance.t) :
  sort byCreatedAtDesc (sort byCreatedAtDesc l) = sort byCreatedAtDesc l.
Proof. apply sort_idempotent; [exact byCreatedAtDesc_trans|exact byCreatedAtDesc_flip]. Qed.

Lemma sort_perm_distinct (l1 l2 : list Balance.t) :
  Permutation l1 l2 ->
  (forall a b, In a l1 -> In b l1 ->
               Balance.createdAt a = Balance.createdAt b -> a = b) ->
  sort byCreatedAtDesc l1 = sort byCreatedAtDesc l2.
Proof.
  intros Hp Hd.
  apply (sorted_perm_unique (fun a b => (byCreatedAtDesc a b <= 0)%Z)).
  - intros a b Ha Hb Hab Hba.
    apply (Permutation_in _ (sort_perm byCreatedAtDesc l1)) in Ha, Hb.
    apply Hd; [exact Ha|exact Hb|]. unfold byCreatedAtDesc in *. lia.
  - apply sort_sorted; [exact byCreatedAtDesc_trans|exact byCreatedAtDesc_flip].
  - apply sort_sorted; [exact byCreatedAtDesc_trans|exact byCreatedAtDesc_flip].
  - rewrite (sort_perm byCreatedAtDesc l1), (sort_perm byCreatedAtDesc l2). exact Hp.
Qed.

Lemma summarize_sorted (balances : list Balance.t) (u : User.t) :
  lastBalance (summarize (sort byCreatedAtDesc balances) u)
    = lastBalance (summarize balances u) /\
  balanceCount (summarize (sort byCreatedAtDesc balances) u)
    = balanceCount (summarize balances u).
Proof.
  unfold summarize. cbn [lastBalance balanceCount].
  rewrite (filter_sort byCreatedAtDesc byCreatedAtDesc_trans byCreatedAtDesc_flip).
  rewrite sort_byCreatedAtDesc_idempotent. split; reflexivity.
Qed.

Lemma filter_perm {A : Type} (p : A -> bool) (l l' : list A) :
  Permutation l l' -> Permutation (List.filter p l) (List.filter p l').
Proof.
  induction 1 as [|x l l' _ IH|x y l|l l' l'' _ IH1 _ IH2]; simpl.
  - reflexivity.
  - destruct (p x); [apply perm_skip|]; exact IH.
  - destruct (p x), (p y); try reflexivity. apply perm_swap.
  - etransitivity; eassumption.
Qed.

(** What the page computes for one user: the effect runs on the array
    that rendering has sorted. *)
Lemma shown_total (balances : list Balance.t) (u : User.t) :
  totalBalance (summarize (sort byCreatedAtDesc balances) u)
  = fold_left num_add
      (map Balance.amount (sort byCreatedAtDesc (balances_of u balances))) num_zero.
Proof.
  unfold summarize. cbn [totalBalance]. unfold sum_amounts.
  rewrite fold_left_amounts.
  rewrite (filter_sort byCreatedAtDesc byCreatedAtDesc_trans byCreatedAtDesc_flip).
  rewrite filter_userId. reflexivity.
Qed.

Lemma shown_count (balances : list Balance.t) (u : User.t) :
  balanceCount (summarize (sort byCreatedAtDesc balances) u)
  = length (balances_of u balances).
Proof.
  unfold summarize. cbn [balanceCount].
  rewrite (filter_sort byCreatedAtDesc byCreatedAtDesc_trans byCreatedAtDesc_flip).
  rewrite !sort_length, filter_userId. reflexivity.
Qed.

(** C5, amended.  The per-user total the report shows is the
    double-precision sum of the amounts of that user's Balances,
    accumulated from 0 in the order of descending [createdAt], Balances
    with equal [createdAt] in the order of the snapshot.  It is the same
    for every ordering of the snapshot when no two Balances of one user
    share their [createdAt].  The per-user count is the number of that
    user's Balances and is the same for every ordering of the
    snapshot. *)
Theorem Reports_totals_and_counts
    (users : list User.t) (balances1 balances2 : list Balance.t) :
  Permutation balances1 balances2 ->
  map totalBalance (snd (fst (Reports users balances1)))
    = map (fun u => fold_left num_add
                      (map Balance.amount
                           (sort byCreatedAtDesc (balances_of u balances1)))
                      num_zero) users /\
  map balanceCount (snd (fst (Reports users balances1)))
    = map (fun u => length (balances_of u balances1)) users /\
  map balanceCount (snd (fst (Reports users balances2)))
    = map balanceCount (snd (fst (Reports users balances1))) /\
  ((forall u a b, In u users ->
      In a (balances_of u balances1) -> In b (balances_of u balances1) ->
      Balance.createdAt a = Balance.createdAt b -> a = b) ->
   map totalBalance (snd (fst (Reports users balances2)))
     = map totalBalance (snd (fst (Reports users balances1)))).
Proof.
  intros Hperm. unfold Reports, summaries. cbn [fst snd]. rewrite !map_map.
  split; [apply map_ext; intros u; apply shown_total|].
  split; [apply map_ext; intros u; apply shown_count|].
  split.
  - apply map_ext. intros u. rewrite !shown_count. unfold balances_of.
    symmetry. apply filter_length_perm, Hperm.
  - intros Hd. apply map_ext_in. intros u Hu. rewrite !shown_total.
    rewrite (sort_perm_distinct (balances_of u balances1) (balances_of u balances2));
      [reflexivity| |].
    + unfold balances_of. apply filter_perm, Hperm.
    + intros a b. apply Hd, Hu.
Qed.

Lemma Reports_totals_and_counts_witness :
  map totalBalance (snd (fst (Reports [alice_user]
        [newBalance feb50 "b-3" 3500; newBalance jan100 "b-1" 2000]))) = [n150] /\
  map balanceCount (snd (fst (Reports [alice_user]
        [newBalance feb50 "b-3" 3500; newBalance jan100 "b-1" 2000]))) = [2].
Proof.
  destruct (Reports_totals_and_counts [alice_user]
              [newBalance jan100 "b-1" 2000; newBalance feb50 "b-3" 3500]
              [newBalance feb50 "b-3" 3500; newBalance jan100 "b-1" 2000])
    as (Ht & Hc & Hc' & Hd).
  - apply perm_swap.
  - split.
    + rewrite Hd.
      * rewrite Ht. vm_compute. reflexivity.
      * intros u a b [<-|[]] Ha Hb E.
        assert (Eo : balances_of alice_user
                       [newBalance jan100 "b-1" 2000; newBalance feb50 "b-3" 3500]
                     = [newBalance jan100 "b-1" 2000; newBalance feb50 "b-3" 3500])
          by (vm_compute; reflexivity).
        rewrite Eo in Ha, Hb.
        destruct Ha as [<-|[<-|[]]], Hb as [<-|[<-|[]]];
          try reflexivity; discriminate E.
    + rewrite Hc', Hc. vm_compute. reflexivity.
Defined.

(** X8.  Sorting the [balances] array in place while rendering is
    harmless for everything but the rounding of the totals: rendering
    the already sorted array again gives the same report, and each
    user's count and last entry are those of the array as it was handed
    in. *)
Theorem Reports_render_stable (users : list User.t) (balances : list Balance.t) :
  Reports users (sort byCreatedAtDesc balances) = Reports users balances /\
  fst (fst (Reports users balances)) = recentEntries users balances /\
  map user (snd (fst (Reports users balances))) = users /\
  map lastBalance (snd (fst (Reports users balances)))
    = map lastBalance (summaries users balances) /\
  map balanceCount (snd (fst (Reports users balances)))
    = map balanceCount (summaries users balances).
Proof.
  unfold Reports, recentEntries. cbn [fst snd].
  rewrite !sort_byCreatedAtDesc_idempotent.
  split; [reflexivity|]. split; [reflexivity|].
  unfold summaries. rewrite !map_map. split; [apply map_id|]. split.
  - apply map_ext. intros u. apply summarize_sorted.
  - apply map_ext. intros u. apply summarize_sorted.
Qed.

(** X9.  When no two Balances of the snapshot share their timestamp, the
    whole report (recent entries, every user's total, count and last
    entry, and the grand total) is the same for every ordering of the
    snapshot. *)
Theorem Reports_order_independent
    (users : list User.t) (balances1 balances2 : list Balance.t) :
  Permutation balances1 balances2 ->
  (forall a b, In a balances1 -> In b balances1 ->
               Balance.createdAt a = Balance.createdAt b -> a = b) ->
  Reports users balances1 = Reports users balances2.
Proof.
  intros Hp Hd. unfold Reports, recentEntries.
  rewrite (sort_perm_distinct balances1 balances2 Hp Hd). reflexivity.
Qed.

Lemma Reports_order_independent_witness :
  Reports [alice_user] [older; newer] = Reports [alice_user] [newer; older].
Proof.
  apply (Reports_order_independent [alice_user] [older; newer] [newer; older]).
  - apply perm_swap.
  - intros a b [<-|[<-|[]]] [<-|[<-|[]]] H; try reflexivity; discriminate H.
Defined.

Lemma list_sum_map_add {A : Type} (f g : A -> nat) (l : list A) :
  list_sum (map (fun x => f x + g x) l) = list_sum (map f l) + list_sum (map g l).
Proof. induction l as [|x l IH]; simpl; [reflexivity|]. rewrite IH. lia. Qed.

Lemma matches_none (users : list User.t) (b : Balance.t) :
  (forall u, In u users -> User.id u <> Balance.userId b) ->
  list_sum (map (fun u => if String.eqb (Balance.userId b) (User.id u) then 1 else 0)
                users) = 0.
Proof.
  induction users as [|u users IH]; intros H; simpl; [reflexivity|].
  destruct (String.eqb_spec (Balance.userId b) (User.id u)) as [E|E].
  - exfalso. apply (H u); [left; reflexivity|congruence].
  - apply IH. intros u' Hu'. apply H. right. exact Hu'.
Qed.

Lemma matches_one_or_orphan (users : list User.t) (b : Balance.t) :
  NoDup (map User.id users) ->
  list_sum (map (fun u => if String.eqb (Balance.userId b) (User.id u) then 1 else 0)
                users)
  + (if is_orphan users b then 1 else 0) = 1.
Proof.
  unfold is_orphan. induction users as [|u users IH]; intros Hnd; simpl; [reflexivity|].
  apply NoDup_cons in Hnd as [Hu Hnd].
  rewrite (String.eqb_sym (User.id u) (Balance.userId b)).
  destruct (String.eqb_spec (Balance.userId b) (User.id u)) as [E|E].
  - rewrite matches_none; [reflexivity|].
    intros u' Hu' E'. apply Hu, list_elem_of_In, in_map_iff.
    exists u'. split; [congruence|exact Hu'].
  - apply IH, Hnd.
Qed.

(** X10.  For users with pairwise distinct ids, every Balance is counted
    for exactly one user or for none: the per-user counts of the report
    add up to the number of Balances less those whose [userId] matches
    no user. *)
Theorem counts_partition (users : list User.t) (balances : list Balance.t) :
  NoDup (map User.id users) ->
  list_sum (map balanceCount (summaries users balances))
  + length (List.filter (is_orphan users) balances)
  = length balances.
Proof.
  intros Hnd. unfold summaries. rewrite map_map.
  rewrite (map_ext (fun u => balanceCount (summarize balances u))
                   (fun u => length (List.filter
                      (fun b => String.eqb (Balance.userId b) (User.id u)) balances)))
    by (intros u; unfold summarize; cbn [balanceCount]; apply sort_length).
  induction balances as [|b bs IH]; simpl.
  - induction users as [|u us IHu]; simpl; [reflexivity|].
    rewrite IHu; [reflexivity|]. apply NoDup_cons in Hnd as [_ Hnd]. exact Hnd.
  - rewrite (map_ext
      (fun u => length (if String.eqb (Balance.userId b) (User.id u)
                        then b :: List.filter
                               (fun b0 => String.eqb (Balance.userId b0) (User.id u)) bs
                        else List.filter
                               (fun b0 => String.eqb (Balance.userId b0) (User.id u)) bs))
      (fun u => (if String.eqb (Balance.userId b) (User.id u) then 1 else 0)
                + length (List.filter
                            (fun b0 => String.eqb (Balance.userId b0) (User.id u)) bs)))
      by (intros u; destruct (String.eqb (Balance.userId b) (User.id u)); reflexivity).
    rewrite list_sum_map_add.
    pose proof (matches_one_or_orphan users b Hnd) as H1.
    destruct (is_orphan users b); simpl; lia.
Qed.

Lemma counts_partition_witness :
  list_sum (map balanceCount (summaries [alice_user] [older; newer]))
  + length (List.filter (is_orphan [alice_user]) [older; newer]) = 2.
Proof.
  apply (counts_partition [alice_user] [older; newer]).
  repeat constructor. intros H. apply list_elem_of_In in H. destruct H.
Defined.

(** * The forms and the page *)

Lemma addUser_settles (user : User.fields) (uuid : string) (now : Z) (db : IDBDatabase) :
  addUser user uuid now db = (Rejected (Some ConstraintError), db) \/
  (db_users db !! uuid = None /\
   addUser user uuid now db
   = (Resolved (newUser user uuid now),
      mkDB (<[uuid := newUser user uuid now]> (db_users db)) (db_balances db))).
Proof.
  unfold addUser, transaction. cbn [run_requests exec]. unfold store_add.
  cbn [User.id newUser].
  destruct (db_users db !! uuid) eqn:Hl; [left; reflexivity|].
  destruct (any_conflict User.id users_indexes _ (db_users db));
    [left; reflexivity|right; split; reflexivity].
Qed.

Lemma addBalance_settles
    (balance : Balance.fields) (uuid : string) (now : Z) (db : IDBDatabase) :
  addBalance balance uuid now db = (Rejected (Some ConstraintError), db) \/
  (db_balances db !! uuid = None /\
   addBalance balance uuid now db
   = (Resolved (newBalance balance uuid now),
      mkDB (db_users db) (<[uuid := newBalance balance uuid now]> (db_balances db)))).
Proof.
  unfold addBalance, transaction. cbn [run_requests exec]. unfold store_add.
  cbn [Balance.id newBalance].
  destruct (db_balances db !! uuid) eqn:Hl; [left; reflexivity|].
  destruct (any_conflict Balance.id balances_indexes _ (db_balances db));
    [left; reflexivity|right; split; reflexivity].
Qed.

Lemma eqb_empty_false (s : string) : String.eqb s "" = false -> s <> "".
Proof. apply String.eqb_neq. Qed.

(** X13.  [UserRegistration.handleSubmit] hands a User to [onUserAdded]
    only after storing it, and only when all four fields of the form are
    filled in, so such a User is never shown under the Unknown
    placeholder; the form is then cleared.  In every other case (a field
    left empty, or the store refusing the User) the form keeps its
    content and the database is untouched. *)
Theorem UserRegistration_handleSubmit_outcome
    (formData : User.fields) (uuid : string) (now : Z) (db : IDBDatabase) :
  match UserRegistration_handleSubmit formData uuid now db with
  | (t, Some u, form', db') =>
      t = ToastFormSuccess /\ form' = empty_user_form /\
      User.name u <> "" /\ User.phone u <> "" /\
      User.address u <> "" /\ User.idNumber u <> "" /\
      getUserById (User.id u) db' = Some u /\
      displayName (Some u) = User.name u
  | (t, None, form', db') =>
      t <> ToastFormSuccess /\ form' = formData /\ db' = db
  end.
Proof.
  unfold UserRegistration_handleSubmit.
  destruct (String.eqb (User.f_name formData) "") eqn:E1;
    [simpl; repeat split; discriminate|].
  destruct (String.eqb (User.f_phone formData) "") eqn:E2;
    [simpl; repeat split; discriminate|].
  destruct (String.eqb (User.f_address formData) "") eqn:E3;
    [simpl; repeat split; discriminate|].
  destruct (String.eqb (User.f_idNumber formData) "") eqn:E4;
    [simpl; repeat split; discriminate|].
  cbn [orb].
  destruct (addUser_settles formData uuid now db) as [H|[_ H]]; rewrite H.
  - repeat split. discriminate.
  - cbn [newUser User.name User.phone User.address User.idNumber User.id].
    unfold getUserById, store_get, displayName. cbn [db_users User.name newUser].
    rewrite E1, lookup_insert_eq.
    repeat split; apply eqb_empty_false; assumption.
Qed.

Lemma positive_when_accepted (x : number) :
  isNaN x = false -> SFleb x num_zero = false -> SFltb num_zero x = true.
Proof.
  destruct x as [[]|[]| |[] m e]; simpl; intros H1 H2;
    try discriminate; reflexivity.
Qed.

(** X12.  [BalanceManagement.handleSubmit] hands a Balance to
    [onBalanceAdded] only after storing it, and only when user and month
    are filled in and the amount parses to a number greater than zero;
    the description is stored as typed, even when empty, and the form
    keeps user and month and clears amount and description.  In every
    other case the form keeps its content and the database is
    untouched. *)
Theorem BalanceManagement_handleSubmit_outcome
    (parseFloat : string -> number)
    (formData : BalanceForm) (uuid : string) (now : Z) (db : IDBDatabase) :
  match BalanceManagement_handleSubmit parseFloat formData uuid now db with
  | (t, Some b, form', db') =>
      t = ToastFormSuccess /\
      In b (getAllBalances db') /\
      Balance.amount b = parseFloat (bf_amount formData) /\
      SFltb num_zero (Balance.amount b) = true /\
      Balance.userId b = bf_userId formData /\ Balance.userId b <> "" /\
      Balance.month b = bf_month formData /\ Balance.month b <> "" /\
      Balance.description b = Some (bf_description formData) /\
      form' = mkBalanceForm (bf_userId formData) "" (bf_month formData) ""
  | (t, None, form', db') =>
      t <> ToastFormSuccess /\ form' = formData /\ db' = db
  end.
Proof.
  unfold BalanceManagement_handleSubmit.
  destruct (String.eqb (bf_userId formData) "") eqn:E1;
    [simpl; repeat split; discriminate|].
  destruct (String.eqb (bf_amount formData) "") eqn:E2;
    [simpl; repeat split; discriminate|].
  destruct (String.eqb (bf_month formData) "") eqn:E3;
    [simpl; repeat split; discriminate|].
  cbn [orb].
  destruct (isNaN (parseFloat (bf_amount formData))) eqn:E4;
    [simpl; repeat split; discriminate|].
  destruct (SFleb (parseFloat (bf_amount formData)) num_zero) eqn:E5;
    [simpl; repeat split; discriminate|].
  cbn [orb].
  match goal with
  | |- context [addBalance ?f uuid now db] =>
      destruct (addBalance_settles f uuid now db) as [H|[_ H]]; rewrite H
  end.
  - repeat split. discriminate.
  - cbn [newBalance Balance.amount Balance.userId Balance.month Balance.description
         Balance.f_amount Balance.f_userId Balance.f_month Balance.f_description].
    repeat split.
    + apply In_getAllBalances. exists uuid. cbn [db_balances]. apply lookup_insert_eq.
    + apply positive_when_accepted; assumption.
    + apply eqb_empty_false, E1.
    + apply eqb_empty_false, E3.
Qed.

Lemma in_sync_loadData (db : IDBDatabase) : in_sync (loadData db).
Proof. split; reflexivity. Qed.

Lemma place_adds_keyed {R : Type} (add : R -> request) (rs : list R) :
  place_adds add (map Keyed rs) = (map add rs, false).
Proof.
  induction rs as [|r rs IH]; simpl; [reflexivity|]. rewrite IH. reflexivity.
Qed.

Lemma place_adds_keyless {R : Type} (add : R -> request) (rs : list R)
    (rest : list (element R)) :
  place_adds add (map Keyed rs ++ Keyless :: rest) = (map add rs, true).
Proof.
  induction rs as [|r rs IH]; simpl; [reflexivity|]. rewrite IH. reflexivity.
Qed.

(** On records of the declared type the two readings of [importData]
    agree. *)
Lemma importData_unchecked_keyed
    (us : list User.t) (bs : list Balance.t) (t : Z) (db : IDBDatabase) :
  importData_unchecked (map Keyed us) (map Keyed bs) db
  = importData (mkExportData us bs t) db.
Proof.
  unfold importData_unchecked, importData, import_requests.
  rewrite !place_adds_keyed. cbn [users balances].
  destruct (transaction false _ db) as [[|e] db']; reflexivity.
Qed.

(** A value without a key among the users: the promise rejects with the
    [DataError], and the store is left with the users placed before it and
    nothing else, unless one of those fails and the transaction aborts. *)
Lemma importData_unchecked_keyless_user
    (us : list User.t) (rest : list (element User.t))
    (bs : list (element Balance.t)) (db : IDBDatabase) :
  importData_unchecked (map Keyed us ++ Keyless :: rest) bs db
  = (Rejected (Some DataError),
     match add_all User.id users_indexes us ∅ with
     | inr mu => mkDB mu ∅
     | inl _ => db
     end).
Proof.
  unfold importData_unchecked. rewrite place_adds_keyless.
  unfold transaction. rewrite app_nil_r.
  change (([ClearUsers; ClearBalances] ++ ?l)%list) with (ClearUsers :: ClearBalances :: l).
  cbn [run_requests exec]. unfold store_clear. cbn [db_users db_balances].
  rewrite run_add_users. cbn [db_users db_balances].
  destruct (add_all User.id users_indexes us ∅); reflexivity.
Qed.

Lemma all_keyed {A R : Type} (f : A -> element R) (l : list A) :
  forallb (fun j => is_keyed (f j)) l = true ->
  exists rs, map f l = map Keyed rs.
Proof.
  induction l as [|x l IH]; simpl; intros H.
  - exists []. reflexivity.
  - apply andb_true_iff in H as [Hx Hl]. destruct (IH Hl) as [rs Hrs].
    destruct (f x) as [r|]; [|discriminate].
    exists (r :: rs). simpl. rewrite Hrs. reflexivity.
Qed.

Lemma step_in_sync
    (parseFloat : string -> number)
    (user_of : json -> element User.t) (balance_of : json -> element Balance.t)
    (st : AppState) (ev : event) :
  no_keyless_import user_of balance_of ev = true ->
  in_sync st -> in_sync (step parseFloat user_of balance_of st ev).
Proof.
  intros Hev [Hu Hb]. destruct st as [db us bs]. cbn [app_db app_users app_balances] in *.
  destruct ev as [formData uuid now|formData uuid now|file|]; cbn [step app_db
    app_users app_balances].
  - unfold UserRegistration_handleSubmit.
    destruct (_ || _ || _ || _); [split; assumption|].
    destruct (addUser_settles formData uuid now db) as [H|[Hn H]]; rewrite H.
    + split; assumption.
    + split; cbn [app_db app_users app_balances].
      * unfold handleUserAdded, getAllUsers. cbn [db_users].
        rewrite (store_getAll_insert _ _ _ Hn).
        rewrite <- Permutation_cons_append. apply perm_skip, Hu.
      * exact Hb.
  - unfold BalanceManagement_handleSubmit.
    destruct (_ || _ || _); [split; assumption|].
    destruct (_ || _); [split; assumption|].
    match goal with
    | |- context [addBalance ?f uuid now db] =>
        destruct (addBalance_settles f uuid now db) as [H|[Hn H]]; rewrite H
    end.
    + split; assumption.
    + split; cbn [app_db app_users app_balances].
      * exact Hu.
      * unfold handleBalanceAdded, getAllBalances. cbn [db_balances].
        rewrite (store_getAll_insert _ _ _ Hn).
        rewrite <- Permutation_cons_append. apply perm_skip, Hb.
  - unfold handleImport, handleImport_try.
    destruct file as [[data|]|]; try (split; assumption).
    cbn [no_keyless_import] in Hev.
    destruct (validate data) as [e|[us' bs']]; [split; assumption|].
    apply andb_true_iff in Hev as [Hus Hbs].
    destruct (all_keyed user_of us' Hus) as [rus Hrus].
    destruct (all_keyed balance_of bs' Hbs) as [rbs Hrbs].
    unfold importData_json. rewrite Hrus, Hrbs.
    rewrite (importData_unchecked_keyed rus rbs 0), importData_unfold.
    cbn [users balances].
    destruct (add_all User.id users_indexes rus ∅) as [e|mu]; [split; assumption|].
    destruct (add_all Balance.id balances_indexes rbs ∅) as [e|mb]; [split; assumption|].
    apply in_sync_loadData.
  - split; cbn [app_db app_users app_balances]; [exact Hu|].
    rewrite (sort_perm byCreatedAtDesc bs). exact Hb.
Qed.

(** X14.  The two lists the page keeps always hold exactly the records of
    the store, in some order, after any sequence of form submissions,
    imports and visits of the reports that starts from a loaded page,
    as long as no imported file that passes the validation holds an
    element without a key. *)
Theorem page_stays_in_sync
    (parseFloat : string -> number)
    (user_of : json -> element User.t) (balance_of : json -> element Balance.t)
    (evs : list event) (db : IDBDatabase) :
  forallb (no_keyless_import user_of balance_of) evs = true ->
  in_sync (steps parseFloat user_of balance_of (loadData db) evs).
Proof.
  unfold steps.
  generalize (in_sync_loadData db). generalize (loadData db).
  induction evs as [|ev evs IH]; intros st Hst Hevs; simpl; [exact Hst|].
  simpl in Hevs. apply andb_true_iff in Hevs as [Hev Hevs].
  apply IH; [|exact Hevs]. apply step_in_sync; assumption.
Qed.

Lemma page_stays_in_sync_witness :
  in_sync (steps sample_parseFloat sample_user_of sample_balance_of (loadData empty_db)
                 [SubmitUser alice "u-1" 1000;
                  ImportFile (Some (Some clashing_file));
                  SubmitBalance feb_form "b-3" 3500;
                  ImportFile (Some (Some good_file));
                  ShowReports;
                  ImportFile (Some None)]).
Proof.
  apply (page_stays_in_sync sample_parseFloat sample_user_of sample_balance_of).
  vm_compute. reflexivity.
Defined.

(** What the two sample imports of the witness do: the clashing file is
    rejected and changes nothing, the good file replaces the store. *)
Example sample_imports :
  handleImport (importData_json sample_user_of sample_balance_of)
               (Some (Some clashing_file)) db_jan = (Some ToastError, db_jan) /\
  fst (handleImport (importData_json sample_user_of sample_balance_of)
                    (Some (Some good_file)) db_jan) = Some (ToastSuccess 2 1) /\
  map User.id (getAllUsers (snd (handleImport
        (importData_json sample_user_of sample_balance_of)
        (Some (Some good_file)) db_jan))) = ["u-5"; "u-6"].
Proof. repeat split; vm_compute; reflexivity. Qed.

(** The condition on the imported files cannot be dropped: after the
    import of [keyless_file] the page still lists Alice and her balance
    while the store is empty. *)
Example keyless_import_loses_sync :
  ~ in_sync (steps sample_parseFloat sample_user_of sample_balance_of (loadData db_jan)
                   [ImportFile (Some (Some keyless_file))]).
Proof.
  assert (E : steps sample_parseFloat sample_user_of sample_balance_of (loadData db_jan)
                    [ImportFile (Some (Some keyless_file))]
              = mkApp empty_db [alice_user] [newBalance jan100 "b-1" 2000])
    by (vm_compute; reflexivity).
  rewrite E. intros [Hu _]. cbn [app_users app_db] in Hu.
  apply Permutation_length in Hu.
  assert (E' : getAllUsers empty_db = []) by (vm_compute; reflexivity).
  rewrite E' in Hu. discriminate Hu.
Qed.

(** C1.  [importData] is not all-or-nothing.  For an element without a
    usable [id], which [handleImport] lets through, [add] throws while the
    requests are being placed: the promise rejects, but the two [clear()]
    requests and the inserts placed before still run and are committed.
    Whatever the database held, an import whose first user has no key
    leaves both collections empty; and from a store holding Alice and her
    January balance, an import of Carol, a keyless user and a balance
    rejects and leaves Carol alone: neither the prior state nor the
    snapshot.  Through [handleImport] the failure toast is shown over an
    emptied store. *)
Theorem importData_keyless_element_not_atomic :
  (forall rest bs db,
     importData_unchecked (Keyless :: rest) bs db
     = (Rejected (Some DataError), empty_db)) /\
  getAllUsers db_jan = [alice_user] /\
  getAllBalances db_jan = [newBalance jan100 "b-1" 2000] /\
  fst (importData_unchecked [Keyed carol_user; Keyless] [Keyed mar50] db_jan)
    = Rejected (Some DataError) /\
  getAllUsers (snd (importData_unchecked [Keyed carol_user; Keyless] [Keyed mar50] db_jan))
    = [carol_user] /\
  getAllBalances (snd (importData_unchecked [Keyed carol_user; Keyless] [Keyed mar50] db_jan))
    = [] /\
  handleImport (importData_json sample_user_of sample_balance_of)
               (Some (Some keyless_file)) db_jan
    = (Some ToastError, empty_db).
Proof.
  split.
  - intros rest bs db.
    apply (importData_unchecked_keyless_user [] rest bs db).
  - repeat split; vm_compute; reflexivity.
Qed.

Lemma string_length_app (s1 s2 : string) :
  String.length (s1 ++ s2) = String.length s1 + String.length s2.
Proof. induction s1 as [|c s1 IH]; simpl; [reflexivity|]. rewrite IH. reflexivity. Qed.

Lemma year_digits (k : nat) :
  k < 9 * 1000 -> String.length (String_of_Z (1000 + Z.of_nat k)) = 4.
Proof.
  intros Hk.
  assert (H : forallb (fun k => Nat.eqb (String.length (String_of_Z (1000 + Z.of_nat k))) 4)
                      (seq 0 (9 * 1000)) = true) by (vm_compute; reflexivity).
  rewrite forallb_forall in H. apply Nat.eqb_eq, H, in_seq. lia.
Qed.

(** X15.  For a date in the years 1000 to 9999 the default month of the
    form is the four digits of the year, a hyphen, and the two-digit
    number of the month from 01 to 12: seven characters in all. *)
Theorem currentMonth_format (year : Z) (monthIndex : nat) :
  (1000 <= year <= 9999)%Z -> monthIndex < 12 ->
  exists yyyy mm,
    currentMonth year monthIndex = yyyy ++ "-" ++ mm /\
    String.length yyyy = 4 /\ yyyy = String_of_Z year /\
    nth_error month_tokens monthIndex = Some mm /\
    String.length (currentMonth year monthIndex) = 7.
Proof.
  intros Hy Hm.
  assert (Hlen : String.length (String_of_Z year) = 4).
  { replace year with (1000 + Z.of_nat (Z.to_nat (year - 1000)))%Z by lia.
    apply year_digits. lia. }
  assert (Hmm : exists mm, nth_error month_tokens monthIndex = Some mm /\
                           String.length mm = 2 /\
                           padStart 2 "0" (String_of_Z (Z.of_nat monthIndex + 1)) = mm).
  { do 12 (destruct monthIndex as [|monthIndex];
           [eexists; split; [reflexivity|split; vm_compute; reflexivity]|]).
    lia. }
  destruct Hmm as (mm & Hnth & Hl2 & Hpad).
  exists (String_of_Z year), mm. unfold currentMonth. rewrite Hpad.
  split; [reflexivity|]. split; [exact Hlen|]. split; [reflexivity|].
  split; [exact Hnth|].
  rewrite !string_length_app, Hlen, Hl2. reflexivity.
Qed.

Lemma currentMonth_format_witness :
  currentMonth 2024 0 = "2024-01" /\ currentMonth 2025 11 = "2025-12".
Proof.
  destruct (currentMonth_format 2024 0) as (y1 & m1 & H1 & _ & -> & Hn1 & _);
    [lia|lia|].
  destruct (currentMonth_format 2025 11) as (y2 & m2 & H2 & _ & -> & Hn2 & _);
    [lia|lia|].
  injection Hn1 as <-. injection Hn2 as <-.
  rewrite H1, H2. split; vm_compute; reflexivity.
Defined.

(** * Backup, and when an insert is accepted *)

(** X7.  A snapshot exported from a well-formed database restores that
    database onto any other: importing it resolves and leaves exactly
    the exported database, whatever the target held. *)
Theorem export_restores_anywhere (now : Z) (src dst : IDBDatabase) :
  db_ok src ->
  importData (exportData now src) dst = (Resolved tt, src).
Proof.
  intros [Hu Hb]. rewrite importData_unfold.
  unfold exportData, getAllUsers, getAllBalances. cbn [users balances].
  rewrite (add_all_reimport User.id users_indexes _ Hu).
  rewrite (add_all_reimport Balance.id balances_indexes _ Hb).
  destruct src; reflexivity.
Qed.

Lemma export_restores_anywhere_witness :
  importData (exportData 0 db_alice) db_jan = (Resolved tt, db_alice).
Proof. apply (export_restores_anywhere 0 db_alice db_jan db_alice_ok). Defined.

(** X11.  [addUser] resolves exactly when no stored User has the
    [idNumber] and the generated id is unused, and [addBalance] exactly
    when no stored Balance has the ([userId], [month]) pair and the
    generated id is unused: name, phone, address, amount and description
    never decide the outcome. *)
Theorem add_resolves_iff :
  (forall (user : User.fields) uuid now db,
     (exists u db', addUser user uuid now db = (Resolved u, db')) <->
     ~ idNumber_taken (User.f_idNumber user) db /\ getUserById uuid db = None)
  /\
  (forall (balance : Balance.fields) uuid now db,
     (exists b db', addBalance balance uuid now db = (Resolved b, db')) <->
     ~ pair_taken (Balance.f_userId balance) (Balance.f_month balance) db /\
     store_get uuid (db_balances db) = None).
Proof.
  split.
  - intros user uuid now db. unfold getUserById, store_get. split.
    + intros (u & db' & H). unfold addUser, transaction in H.
      cbn [run_requests exec] in H.
      destruct (store_add User.id users_indexes (newUser user uuid now) (db_users db))
        as [e|m] eqn:Ha; [discriminate|].
      apply store_add_inr in Ha as (Hn & Hc & _).
      rewrite users_conflict_false in Hc. cbn [User.id newUser] in Hn.
      split; [|exact Hn]. intros (w & Hin & Hw).
      apply In_getAllUsers in Hin as [k Hl].
      apply (Hc k w Hl); [|exact Hw]. intros ->. cbn [User.id newUser] in Hl. congruence.
    + intros [Hfree Hn].
      unfold addUser, transaction. cbn [run_requests exec]. unfold store_add.
      cbn [User.id newUser]. rewrite Hn.
      assert (Hc : any_conflict User.id users_indexes (newUser user uuid now)
                     (db_users db) = false).
      { apply users_conflict_false. intros k w Hl _ He. apply Hfree.
        exists w. split; [apply In_getAllUsers; eauto|exact He]. }
      rewrite Hc. eauto.
  - intros balance uuid now db. unfold store_get. split.
    + intros (b & db' & H). unfold addBalance, transaction in H.
      cbn [run_requests exec] in H.
      destruct (store_add Balance.id balances_indexes (newBalance balance uuid now)
                  (db_balances db)) as [e|m] eqn:Ha; [discriminate|].
      apply store_add_inr in Ha as (Hn & Hc & _).
      rewrite balances_conflict_false in Hc. cbn [Balance.id newBalance] in Hn.
      split; [|exact Hn]. intros (w & Hin & Hw1 & Hw2).
      apply In_getAllBalances in Hin as [k Hl].
      apply (Hc k w Hl); [|split; [exact Hw1|exact Hw2]].
      intros ->. cbn [Balance.id newBalance] in Hl. congruence.
    + intros [Hfree Hn].
      unfold addBalance, transaction. cbn [run_requests exec]. unfold store_add.
      cbn [Balance.id newBalance]. rewrite Hn.
      assert (Hc : any_conflict Balance.id balances_indexes (newBalance balance uuid now)
                     (db_balances db) = false).
      { apply balances_conflict_false. intros k w Hl _ [He1 He2]. apply Hfree.
        exists w. split; [apply In_getAllBalances; eauto|]. split; assumption. }
      rewrite Hc. eauto.
Qed.

(** X16.  Submitting the same registration, or the same balance entry,
    a second time never stores a second record: once [addUser] or
    [addBalance] has resolved, the same fields are rejected with a
    constraint violation whatever id and timestamp are generated, and
    the database stays as the first call left it. *)
Theorem second_submission_rejected :
  (forall (user : User.fields) uuid1 now1 uuid2 now2 db u db1,
     addUser user uuid1 now1 db = (Resolved u, db1) ->
     addUser user uuid2 now2 db1 = (Rejected (Some ConstraintError), db1))
  /\
  (forall (balance : Balance.fields) uuid1 now1 uuid2 now2 db b db1,
     addBalance balance uuid1 now1 db = (Resolved b, db1) ->
     addBalance balance uuid2 now2 db1 = (Rejected (Some ConstraintError), db1)).
Proof.
  split.
  - intros user uuid1 now1 uuid2 now2 db u db1 H.
    destruct (addUser_settles user uuid1 now1 db) as [H1|[_ H1]];
      rewrite H1 in H; [discriminate|]. injection H as <- <-.
    destruct (addUser_settles user uuid2 now2
                (mkDB (<[uuid1 := newUser user uuid1 now1]> (db_users db))
                      (db_balances db))) as [H2|[Hn H2]]; [exact H2|].
    exfalso. cbn [db_users] in Hn.
    assert (Hex : exists u' db', addUser user uuid2 now2
                (mkDB (<[uuid1 := newUser user uuid1 now1]> (db_users db))
                      (db_balances db)) = (Resolved u', db')) by eauto.
    clear H2. destruct Hex as (u' & db' & H2).
    unfold addUser, transaction in H2. cbn [run_requests exec db_users] in H2.
    destruct (store_add User.id users_indexes (newUser user uuid2 now2)
                (<[uuid1 := newUser user uuid1 now1]> (db_users db)))
      as [e|m] eqn:Ha; [discriminate|].
    apply store_add_inr in Ha as (_ & Hc & _). rewrite users_conflict_false in Hc.
    apply (Hc uuid1 (newUser user uuid1 now1)); [apply lookup_insert_eq| |reflexivity].
    cbn [User.id newUser]. intros ->. rewrite lookup_insert_eq in Hn. discriminate.
  - intros balance uuid1 now1 uuid2 now2 db b db1 H.
    destruct (addBalance_settles balance uuid1 now1 db) as [H1|[_ H1]];
      rewrite H1 in H; [discriminate|]. injection H as <- <-.
    destruct (addBalance_settles balance uuid2 now2
                (mkDB (db_users db)
                      (<[uuid1 := newBalance balance uuid1 now1]> (db_balances db))))
      as [H2|[Hn H2]]; [exact H2|].
    exfalso. cbn [db_balances] in Hn.
    unfold addBalance, transaction in H2. cbn [run_requests exec db_balances] in H2.
    destruct (store_add Balance.id balances_indexes (newBalance balance uuid2 now2)
                (<[uuid1 := newBalance balance uuid1 now1]> (db_balances db)))
      as [e|m] eqn:Ha; [discriminate|].
    apply store_add_inr in Ha as (_ & Hc & _). rewrite balances_conflict_false in Hc.
    apply (Hc uuid1 (newBalance balance uuid1 now1));
      [apply lookup_insert_eq| |split; reflexivity].
    cbn [Balance.id newBalance]. intros ->. rewrite lookup_insert_eq in Hn. discriminate.
Qed.

Lemma second_submission_rejected_witness :
  addUser alice "u-7" 7000 db_alice = (Rejected (Some ConstraintError), db_alice) /\
  addBalance jan100 "b-7" 7000 db_jan = (Rejected (Some ConstraintError), db_jan).
Proof.
  split.
  - apply (proj1 second_submission_rejected alice "u-1" 1000%Z "u-7" 7000%Z
                 empty_db alice_user db_alice).
    vm_compute. reflexivity.
  - apply (proj2 second_submission_rejected jan100 "b-1" 2000%Z "b-7" 7000%Z
                 db_alice (newBalance jan100 "b-1" 2000) db_jan).
    vm_compute. reflexivity.
Defined.
